(** * go-centrifuge: the document core

    A shallow embedding of the document package of go-centrifuge
    (documents/coredocument.go, the tree helpers, the p2p receiver handler)
    and the properties of its specification that concern version lineage,
    root derivation, proof composition, collaborators, NFTs and access.

    Go values are modelled as follows.  A byte slice is a [list byte]; a
    slice that the code tests against [nil] is an [option]; a pointer
    receiver that a method mutates is passed in and returned; a Go
    [(value, error)] pair is a [result], except where the code assigns the
    value before it looks at the error.  Packages that the document
    package calls but that are not part of it (sha256, the random source,
    the identity package, the flattening of protobuf messages into leaves)
    are the fields of the class [Env]. *)

From Stdlib Require Import Strings.Ascii Strings.String Strings.Byte.
From stdpp Require Import gmap strings list fin_maps pretty.

Open Scope string_scope.
Open Scope list_scope.
Open Scope stdpp_scope.

(** ** Bytes *)

Abbreviation byte := Byte.byte.
Abbreviation bytes := (list Byte.byte).

Global Instance byte_eq_dec : EqDecision byte := Byte.byte_eq_dec.

Global Instance byte_countable : Countable byte :=
  inj_countable Byte.to_N Byte.of_N Byte.of_to_N.

Definition zeroBytes (n : nat) : bytes := replicate n Byte.x00.

(** [bytes.Equal] *)
Definition bytes_eqb (a b : bytes) : bool := bool_decide (a = b).

(** [bytes.Compare a b <= 0]: the lexicographic order on byte strings. *)
Fixpoint bytes_leb (a b : bytes) : bool :=
  match a, b with
  | [], _ => true
  | _ :: _, [] => false
  | x :: a', y :: b' =>
      if (Byte.to_N x <? Byte.to_N y)%N then true
      else if (Byte.to_N y <? Byte.to_N x)%N then false
      else bytes_leb a' b'
  end.

Definition bytes_of_string (s : string) : bytes := String.list_byte_of_string s.

(** ** Errors and results *)

(** A Go [error] built by [errors.New]: its message. *)
Inductive error := Error (msg : string).

Definition errMsg (e : error) : string := let 'Error m := e in m.

(** [errors.New(prefix + "%v", err)] *)
Definition wrapErr (prefix : string) (e : error) : error :=
  Error (prefix +:+ errMsg e).

Inductive result (A : Type) :=
| Ok (a : A)
| Err (e : error).
Arguments Ok {A} a.
Arguments Err {A} e.

Definition isErr {A} (r : result A) : bool :=
  match r with Ok _ => false | Err _ => true end.

(** A method with a pointer receiver of type [S] that returns [(A, error)]:
    the receiver after the call is returned next to the result, also when
    the result is an error. *)
Definition method (S A : Type) : Type := S → result A * S.

Definition mret {S A} (a : A) : method S A := λ s, (Ok a, s).
Definition mfail {S A} (e : error) : method S A := λ s, (Err e, s).
Definition mbind {S A B} (m : method S A) (k : A → method S B) : method S B :=
  λ s, match m s with
       | (Ok a, s') => k a s'
       | (Err e, s') => (Err e, s')
       end.
(** [if err != nil { return nil, errors.New(prefix, err) }] *)
Definition mwrap {S A} (prefix : string) (m : method S A) : method S A :=
  λ s, match m s with
       | (Ok a, s') => (Ok a, s')
       | (Err e, s') => (Err (wrapErr prefix e), s')
       end.
Definition mlift {S A} (r : result A) : method S A := λ s, (r, s).
Definition mget {S} : method S S := λ s, (Ok s, s).
Definition mmodify {S} (f : S → S) : method S unit := λ s, (Ok tt, f s).

Notation "x <- m ;; k" := (mbind m (λ x, k))
  (at level 100, m at next level, right associativity, only parsing).

(** ** Strings *)

(** [strings.ToLower] on the ASCII range. *)
Definition lower_ascii (c : ascii) : ascii :=
  let n := nat_of_ascii c in
  if (65 <=? n)%nat && (n <=? 90)%nat then ascii_of_nat (n + 32) else c.

Fixpoint ToLower (s : string) : string :=
  match s with
  | EmptyString => EmptyString
  | String c s' => String (lower_ascii c) (ToLower s')
  end.

(** [strings.Split(s, sep)] for a separator of one character: never empty. *)
Fixpoint Split (s : string) (sep : ascii) : list string :=
  match s with
  | EmptyString => [EmptyString]
  | String c s' =>
      if bool_decide (c = sep) then EmptyString :: Split s' sep
      else match Split s' sep with
           | [] => [String c EmptyString]
           | w :: ws => String c w :: ws
           end
  end.

(** [strings.Split(f, ".")[0]] *)
Definition fieldPrefix (f : string) : string :=
  match Split f "." with
  | [] => EmptyString
  | p :: _ => p
  end.

(** ** The protobuf messages of the core document *)

Inductive Action := ACTION_INVALID | ACTION_READ_SIGN | ACTION_READ.
Global Instance Action_eq_dec : EqDecision Action.
Proof. solve_decision. Defined.

Inductive FieldMatchType := FIELD_MATCH_TYPE_EXACT | FIELD_MATCH_TYPE_PREFIX.
Inductive TransitionAction := TRANSITION_ACTION_EDIT.

Record Signature := {
  SignerId : bytes;
  PublicKey : bytes;
  SignatureBytes : bytes;
  SigTimestamp : bytes }.
Global Instance Signature_eq_dec : EqDecision Signature.
Proof. solve_decision. Defined.

Record SignatureData := { Signatures : list Signature }.

Record Role := {
  RoleKey : bytes;
  Collaborators : list bytes;
  RoleNfts : list bytes }.

Record ReadRule := {
  ReadRoles : list bytes;
  ReadAction : Action }.

Record TransitionRule := {
  RuleRoles : list bytes;
  MatchType : FieldMatchType;
  Field : bytes;
  RuleAction : TransitionAction }.

Record NFT := {
  RegistryId : bytes;
  TokenId : bytes }.

Record AccessToken := {
  Identifier : bytes;
  Granter : bytes;
  Grantee : bytes;
  RoleIdentifier : bytes;
  DocumentIdentifierAT : bytes;
  ATSignature : bytes;
  Key : bytes }.

Record DocumentSalt := {
  SaltCompact : bytes;
  SaltValue : bytes }.

(** [any.Any] *)
Record Any := {
  TypeUrl : string;
  AnyValue : bytes }.

(** [coredocumentpb.CoreDocument] *)
Record CoreDocumentPb := {
  DocumentIdentifier : bytes;
  PreviousVersion : bytes;
  CurrentVersion : bytes;
  NextVersion : bytes;
  CurrentPreimage : bytes;
  NextPreimage : bytes;
  PreviousRoot : bytes;
  DataRoot : bytes;
  SigningRoot : bytes;
  DocumentRoot : bytes;
  Roles : list Role;
  ReadRules : list ReadRule;
  TransitionRules : list TransitionRule;
  Nfts : list NFT;
  AccessTokens : list AccessToken;
  SignatureDataOf : option SignatureData;
  SignatureDataSalts : option (list DocumentSalt);
  CoredocumentSalts : option (list DocumentSalt);
  EmbeddedData : option Any;
  EmbeddedDataSalts : option (list DocumentSalt);
  Author : bytes;
  Timestamp : option Z }.

(** The zero value of the struct. *)
Definition emptyPb : CoreDocumentPb := {|
  DocumentIdentifier := []; PreviousVersion := []; CurrentVersion := [];
  NextVersion := []; CurrentPreimage := []; NextPreimage := [];
  PreviousRoot := []; DataRoot := []; SigningRoot := []; DocumentRoot := [];
  Roles := []; ReadRules := []; TransitionRules := []; Nfts := [];
  AccessTokens := []; SignatureDataOf := None; SignatureDataSalts := None;
  CoredocumentSalts := None; EmbeddedData := None; EmbeddedDataSalts := None;
  Author := []; Timestamp := None |}.

(** Field assignments. *)
Definition set_DocumentIdentifier (v : bytes) (d : CoreDocumentPb) : CoreDocumentPb :=
  {| DocumentIdentifier := v; PreviousVersion := PreviousVersion d;
     CurrentVersion := CurrentVersion d; NextVersion := NextVersion d;
     CurrentPreimage := CurrentPreimage d; NextPreimage := NextPreimage d;
     PreviousRoot := PreviousRoot d; DataRoot := DataRoot d;
     SigningRoot := SigningRoot d; DocumentRoot := DocumentRoot d;
     Roles := Roles d; ReadRules := ReadRules d;
     TransitionRules := TransitionRules d; Nfts := Nfts d;
     AccessTokens := AccessTokens d; SignatureDataOf := SignatureDataOf d;
     SignatureDataSalts := SignatureDataSalts d;
     CoredocumentSalts := CoredocumentSalts d; EmbeddedData := EmbeddedData d;
     EmbeddedDataSalts := EmbeddedDataSalts d; Author := Author d;
     Timestamp := Timestamp d |}.
Definition set_PreviousVersion (v : bytes) (d : CoreDocumentPb) : CoreDocumentPb :=
  {| DocumentIdentifier := DocumentIdentifier d; PreviousVersion := v;
     CurrentVersion := CurrentVersion d; NextVersion := NextVersion d;
     CurrentPreimage := CurrentPreimage d; NextPreimage := NextPreimage d;
     PreviousRoot := PreviousRoot d; DataRoot := DataRoot d;
     SigningRoot := SigningRoot d; DocumentRoot := DocumentRoot d;
     Roles := Roles d; ReadRules := ReadRules d;
     TransitionRules := TransitionRules d; Nfts := Nfts d;
     AccessTokens := AccessTokens d; SignatureDataOf := SignatureDataOf d;
     SignatureDataSalts := SignatureDataSalts d;
     CoredocumentSalts := CoredocumentSalts d; EmbeddedData := EmbeddedData d;
     EmbeddedDataSalts := EmbeddedDataSalts d; Author := Author d;
     Timestamp := Timestamp d |}.
Definition set_CurrentVersion (v : bytes) (d : CoreDocumentPb) : CoreDocumentPb :=
  {| DocumentIdentifier := DocumentIdentifier d; PreviousVersion := PreviousVersion d;
     CurrentVersion := v; NextVersion := NextVersion d;
     CurrentPreimage := CurrentPreimage d; NextPreimage := NextPreimage d;
     PreviousRoot := PreviousRoot d; DataRoot := DataRoot d;
     SigningRoot := SigningRoot d; DocumentRoot := DocumentRoot d;
     Roles := Roles d; ReadRules := ReadRules d;
     TransitionRules := TransitionRules d; Nfts := Nfts d;
     AccessTokens := AccessTokens d; SignatureDataOf := SignatureDataOf d;
     SignatureDataSalts := SignatureDataSalts d;
     CoredocumentSalts := CoredocumentSalts d; EmbeddedData := EmbeddedData d;
     EmbeddedDataSalts := EmbeddedDataSalts d; Author := Author d;
     Timestamp := Timestamp d |}.
Definition set_NextVersion (v : bytes) (d : CoreDocumentPb) : CoreDocumentPb :=
  {| DocumentIdentifier := DocumentIdentifier d; PreviousVersion := PreviousVersion d;
     CurrentVersion := CurrentVersion d; NextVersion := v;
     CurrentPreimage := CurrentPreimage d; NextPreimage := NextPreimage d;
     PreviousRoot := PreviousRoot d; DataRoot := DataRoot d;
     SigningRoot := SigningRoot d; DocumentRoot := DocumentRoot d;
     Roles := Roles d; ReadRules := ReadRules d;
     TransitionRules := TransitionRules d; Nfts := Nfts d;
     AccessTokens := AccessTokens d; SignatureDataOf := SignatureDataOf d;
     SignatureDataSalts := SignatureDataSalts d;
     CoredocumentSalts := CoredocumentSalts d; EmbeddedData := EmbeddedData d;
     EmbeddedDataSalts := EmbeddedDataSalts d; Author := Author d;
     Timestamp := Timestamp d |}.
Definition set_CurrentPreimage (v : bytes) (d : CoreDocumentPb) : CoreDocumentPb :=
  {| DocumentIdentifier := DocumentIdentifier d; PreviousVersion := PreviousVersion d;
     CurrentVersion := CurrentVersion d; NextVersion := NextVersion d;
     CurrentPreimage := v; NextPreimage := NextPreimage d;
     PreviousRoot := PreviousRoot d; DataRoot := DataRoot d;
     SigningRoot := SigningRoot d; DocumentRoot := DocumentRoot d;
     Roles := Roles d; ReadRules := ReadRules d;
     TransitionRules := TransitionRules d; Nfts := Nfts d;
     AccessTokens := AccessTokens d; SignatureDataOf := SignatureDataOf d;
     SignatureDataSalts := SignatureDataSalts d;
     CoredocumentSalts := CoredocumentSalts d; EmbeddedData := EmbeddedData d;
     EmbeddedDataSalts := EmbeddedDataSalts d; Author := Author d;
     Timestamp := Timestamp d |}.
Definition set_NextPreimage (v : bytes) (d : CoreDocumentPb) : CoreDocumentPb :=
  {| DocumentIdentifier := DocumentIdentifier d; PreviousVersion := PreviousVersion d;
     CurrentVersion := CurrentVersion d; NextVersion := NextVersion d;
     CurrentPreimage := CurrentPreimage d; NextPreimage := v;
     PreviousRoot := PreviousRoot d; DataRoot := DataRoot d;
     SigningRoot := SigningRoot d; DocumentRoot := DocumentRoot d;
     Roles := Roles d; ReadRules := ReadRules d;
     TransitionRules := TransitionRules d; Nfts := Nfts d;
     AccessTokens := AccessTokens d; SignatureDataOf := SignatureDataOf d;
     SignatureDataSalts := SignatureDataSalts d;
     CoredocumentSalts := CoredocumentSalts d; EmbeddedData := EmbeddedData d;
     EmbeddedDataSalts := EmbeddedDataSalts d; Author := Author d;
     Timestamp := Timestamp d |}.
Definition set_DocumentRoot (v : bytes) (d : CoreDocumentPb) : CoreDocumentPb :=
  {| DocumentIdentifier := DocumentIdentifier d; PreviousVersion := PreviousVersion d;
     CurrentVersion := CurrentVersion d; NextVersion := NextVersion d;
     CurrentPreimage := CurrentPreimage d; NextPreimage := NextPreimage d;
     PreviousRoot := PreviousRoot d; DataRoot := DataRoot d;
     SigningRoot := SigningRoot d; DocumentRoot := v;
     Roles := Roles d; ReadRules := ReadRules d;
     TransitionRules := TransitionRules d; Nfts := Nfts d;
     AccessTokens := AccessTokens d; SignatureDataOf := SignatureDataOf d;
     SignatureDataSalts := SignatureDataSalts d;
     CoredocumentSalts := CoredocumentSalts d; EmbeddedData := EmbeddedData d;
     EmbeddedDataSalts := EmbeddedDataSalts d; Author := Author d;
     Timestamp := Timestamp d |}.
Definition set_Roles (v : list Role) (d : CoreDocumentPb) : CoreDocumentPb :=
  {| DocumentIdentifier := DocumentIdentifier d; PreviousVersion := PreviousVersion d;
     CurrentVersion := CurrentVersion d; NextVersion := NextVersion d;
     CurrentPreimage := CurrentPreimage d; NextPreimage := NextPreimage d;
     PreviousRoot := PreviousRoot d; DataRoot := DataRoot d;
     SigningRoot := SigningRoot d; DocumentRoot := DocumentRoot d;
     Roles := v; ReadRules := ReadRules d;
     TransitionRules := TransitionRules d; Nfts := Nfts d;
     AccessTokens := AccessTokens d; SignatureDataOf := SignatureDataOf d;
     SignatureDataSalts := SignatureDataSalts d;
     CoredocumentSalts := CoredocumentSalts d; EmbeddedData := EmbeddedData d;
     EmbeddedDataSalts := EmbeddedDataSalts d; Author := Author d;
     Timestamp := Timestamp d |}.
Definition set_ReadRules (v : list ReadRule) (d : CoreDocumentPb) : CoreDocumentPb :=
  {| DocumentIdentifier := DocumentIdentifier d; PreviousVersion := PreviousVersion d;
     CurrentVersion := CurrentVersion d; NextVersion := NextVersion d;
     CurrentPreimage := CurrentPreimage d; NextPreimage := NextPreimage d;
     PreviousRoot := PreviousRoot d; DataRoot := DataRoot d;
     SigningRoot := SigningRoot d; DocumentRoot := DocumentRoot d;
     Roles := Roles d; ReadRules := v;
     TransitionRules := TransitionRules d; Nfts := Nfts d;
     AccessTokens := AccessTokens d; SignatureDataOf := SignatureDataOf d;
     SignatureDataSalts := SignatureDataSalts d;
     CoredocumentSalts := CoredocumentSalts d; EmbeddedData := EmbeddedData d;
     EmbeddedDataSalts := EmbeddedDataSalts d; Author := Author d;
     Timestamp := Timestamp d |}.
Definition set_TransitionRules (v : list TransitionRule) (d : CoreDocumentPb) : CoreDocumentPb :=
  {| DocumentIdentifier := DocumentIdentifier d; PreviousVersion := PreviousVersion d;
     CurrentVersion := CurrentVersion d; NextVersion := NextVersion d;
     CurrentPreimage := CurrentPreimage d; NextPreimage := NextPreimage d;
     PreviousRoot := PreviousRoot d; DataRoot := DataRoot d;
     SigningRoot := SigningRoot d; DocumentRoot := DocumentRoot d;
     Roles := Roles d; ReadRules := ReadRules d;
     TransitionRules := v; Nfts := Nfts d;
     AccessTokens := AccessTokens d; SignatureDataOf := SignatureDataOf d;
     SignatureDataSalts := SignatureDataSalts d;
     CoredocumentSalts := CoredocumentSalts d; EmbeddedData := EmbeddedData d;
     EmbeddedDataSalts := EmbeddedDataSalts d; Author := Author d;
     Timestamp := Timestamp d |}.
Definition set_Nfts (v : list NFT) (d : CoreDocumentPb) : CoreDocumentPb :=
  {| DocumentIdentifier := DocumentIdentifier d; PreviousVersion := PreviousVersion d;
     CurrentVersion := CurrentVersion d; NextVersion := NextVersion d;
     CurrentPreimage := CurrentPreimage d; NextPreimage := NextPreimage d;
     PreviousRoot := PreviousRoot d; DataRoot := DataRoot d;
     SigningRoot := SigningRoot d; DocumentRoot := DocumentRoot d;
     Roles := Roles d; ReadRules := ReadRules d;
     TransitionRules := TransitionRules d; Nfts := v;
     AccessTokens := AccessTokens d; SignatureDataOf := SignatureDataOf d;
     SignatureDataSalts := SignatureDataSalts d;
     CoredocumentSalts := CoredocumentSalts d; EmbeddedData := EmbeddedData d;
     EmbeddedDataSalts := EmbeddedDataSalts d; Author := Author d;
     Timestamp := Timestamp d |}.
Definition set_SignatureData (v : option SignatureData) (d : CoreDocumentPb) : CoreDocumentPb :=
  {| DocumentIdentifier := DocumentIdentifier d; PreviousVersion := PreviousVersion d;
     CurrentVersion := CurrentVersion d; NextVersion := NextVersion d;
     CurrentPreimage := CurrentPreimage d; NextPreimage := NextPreimage d;
     PreviousRoot := PreviousRoot d; DataRoot := DataRoot d;
     SigningRoot := SigningRoot d; DocumentRoot := DocumentRoot d;
     Roles := Roles d; ReadRules := ReadRules d;
     TransitionRules := TransitionRules d; Nfts := Nfts d;
     AccessTokens := AccessTokens d; SignatureDataOf := v;
     SignatureDataSalts := SignatureDataSalts d;
     CoredocumentSalts := CoredocumentSalts d; EmbeddedData := EmbeddedData d;
     EmbeddedDataSalts := EmbeddedDataSalts d; Author := Author d;
     Timestamp := Timestamp d |}.
Definition set_SignatureDataSalts (v : option (list DocumentSalt)) (d : CoreDocumentPb) : CoreDocumentPb :=
  {| DocumentIdentifier := DocumentIdentifier d; PreviousVersion := PreviousVersion d;
     CurrentVersion := CurrentVersion d; NextVersion := NextVersion d;
     CurrentPreimage := CurrentPreimage d; NextPreimage := NextPreimage d;
     PreviousRoot := PreviousRoot d; DataRoot := DataRoot d;
     SigningRoot := SigningRoot d; DocumentRoot := DocumentRoot d;
     Roles := Roles d; ReadRules := ReadRules d;
     TransitionRules := TransitionRules d; Nfts := Nfts d;
     AccessTokens := AccessTokens d; SignatureDataOf := SignatureDataOf d;
     SignatureDataSalts := v;
     CoredocumentSalts := CoredocumentSalts d; EmbeddedData := EmbeddedData d;
     EmbeddedDataSalts := EmbeddedDataSalts d; Author := Author d;
     Timestamp := Timestamp d |}.
Definition set_CoredocumentSalts (v : option (list DocumentSalt)) (d : CoreDocumentPb) : CoreDocumentPb :=
  {| DocumentIdentifier := DocumentIdentifier d; PreviousVersion := PreviousVersion d;
     CurrentVersion := CurrentVersion d; NextVersion := NextVersion d;
     CurrentPreimage := CurrentPreimage d; NextPreimage := NextPreimage d;
     PreviousRoot := PreviousRoot d; DataRoot := DataRoot d;
     SigningRoot := SigningRoot d; DocumentRoot := DocumentRoot d;
     Roles := Roles d; ReadRules := ReadRules d;
     TransitionRules := TransitionRules d; Nfts := Nfts d;
     AccessTokens := AccessTokens d; SignatureDataOf := SignatureDataOf d;
     SignatureDataSalts := SignatureDataSalts d;
     CoredocumentSalts := v; EmbeddedData := EmbeddedData d;
     EmbeddedDataSalts := EmbeddedDataSalts d; Author := Author d;
     Timestamp := Timestamp d |}.
Definition set_SigningRoot (v : bytes) (d : CoreDocumentPb) : CoreDocumentPb :=
  {| DocumentIdentifier := DocumentIdentifier d; PreviousVersion := PreviousVersion d;
     CurrentVersion := CurrentVersion d; NextVersion := NextVersion d;
     CurrentPreimage := CurrentPreimage d; NextPreimage := NextPreimage d;
     PreviousRoot := PreviousRoot d; DataRoot := DataRoot d;
     SigningRoot := v; DocumentRoot := DocumentRoot d;
     Roles := Roles d; ReadRules := ReadRules d;
     TransitionRules := TransitionRules d; Nfts := Nfts d;
     AccessTokens := AccessTokens d; SignatureDataOf := SignatureDataOf d;
     SignatureDataSalts := SignatureDataSalts d;
     CoredocumentSalts := CoredocumentSalts d; EmbeddedData := EmbeddedData d;
     EmbeddedDataSalts := EmbeddedDataSalts d; Author := Author d;
     Timestamp := Timestamp d |}.

(** [documents.CoreDocument]: the wrapper of the protobuf. *)
Record CoreDocument := { Document : CoreDocumentPb }.

(** A [proto.Message] handed to the tree builder. *)
Inductive Message :=
| MsgCoreDocument (d : CoreDocumentPb)
| MsgSignatureData (sd : option SignatureData).

(** ** The types of the tree builder (package proofs) *)

Record Property := {
  ReadableName : string;
  CompactName : bytes }.

Record LeafNode := {
  LeafProperty : Property;
  Value : bytes;
  Salt : bytes;
  LeafHash : bytes;
  Hashed : bool }.

Record TreeOptions := {
  CompactProperties : bool;
  EnableHashSorting : bool;
  Hash : bytes → bytes;
  ParentPrefix : Property }.

(** [proofspb.Proof] *)
Record Proof := {
  ProofProperty : string;
  ProofValue : bytes;
  ProofSalt : bytes;
  ProofHash : bytes;
  SortedHashes : list bytes }.

Record DocumentTree := {
  opts : TreeOptions;
  leaves : list LeafNode;
  filled : bool;
  rootHash : bytes }.

(** [proofs.Salts] *)
Abbreviation Salts := (list DocumentSalt).

(** ** What the document package takes from other packages

    [sha256] is crypto/sha256; [RandomSlice] and [GenerateHashPair] draw
    from the random source, whose state is [Rand]; [DID] and its
    operations are the identity package; [FlattenMessage] is the
    traversal of a protobuf message into leaves that
    [AddLeavesFromDocument] of the tree builder performs;
    [ConvertToProtoSalts] and [ConvertToProofSalts] translate between the
    two representations of salts. *)
Class Env := {
  sha256 : bytes → bytes;
  Rand : Type;
  RandomSlice : nat → Rand → bytes * Rand;
  GenerateHashPair : nat → Rand → (bytes * bytes * option error) * Rand;
  DID : Type;
  NewDIDFromBytes : bytes → DID;
  DIDBytes : DID → bytes;
  DIDString : DID → string;
  NewDIDsFromStrings : list string → result (list DID);
  FlattenMessage : TreeOptions → Message → result (list LeafNode);
  ConvertToProtoSalts : Salts → option (list DocumentSalt);
  ConvertToProofSalts : option (list DocumentSalt) → Salts }.

(** ** The tree builder *)

Module proofs.

(** The merkle-tree builder is the external library precise-proofs, which
    is not part of the sources; it is modelled from the spec.  Section 4.1
    of the specification gives its contract: leaves are hashed as
    [H(name ‖ value ‖ salt)], already hashed leaves are accepted next to
    value leaves, siblings are sorted by byte value before they are hashed
    in pairs, a proof is the sequence of sibling hashes, and proving a
    field fails when the tree has not been generated or has no such
    field.  A node without a sibling moves up unchanged. *)

(** Modelled from the spec: a property with its readable name and its
    compact bytes. *)
Definition NewProperty (literal : string) (compact : bytes) : Property :=
  {| ReadableName := literal; CompactName := compact |}.

(** Modelled from the spec: the zero value of a property, for a tree without
    a parent prefix. *)
Definition emptyProperty : Property := NewProperty "" [].

(** Modelled from the spec: a tree of the tree builder before any leaf is
    added. *)
Definition NewDocumentTree (o : TreeOptions) : DocumentTree :=
  {| opts := o; leaves := []; filled := false; rootHash := [] |}.

(** Modelled from the spec: section 4.1 hashes a leaf as
    [H(name ‖ value ‖ salt)], the name being the compact one when compact
    properties are on. *)
Definition HashNode (h : bytes → bytes) (compact : bool) (n : LeafNode) : LeafNode :=
  let name := if compact then CompactName (LeafProperty n)
              else bytes_of_string (ReadableName (LeafProperty n)) in
  {| LeafProperty := LeafProperty n; Value := Value n; Salt := Salt n;
     LeafHash := h (name ++ Value n ++ Salt n); Hashed := true |}.

(** Modelled from the spec: section 4.1, siblings are sorted by byte value
    before they are hashed as a pair. *)
Definition hashPair (o : TreeOptions) (l r : bytes) : bytes :=
  if EnableHashSorting o && negb (bytes_leb l r)
  then Hash o (r ++ l) else Hash o (l ++ r).

(** Modelled from the spec: one level of the binary merkle tree of section
    4.1 from the level below. *)
Fixpoint levelUp (o : TreeOptions) (hs : list bytes) : list bytes :=
  match hs with
  | l :: r :: rest => hashPair o l r :: levelUp o rest
  | _ => hs
  end.

(** Modelled from the spec: the root of the binary merkle tree of section
    4.1; every level is shorter than the one below, so as many levels as
    there are leaves suffice. *)
Fixpoint merkleRootFrom (fuel : nat) (o : TreeOptions) (hs : list bytes) : bytes :=
  match hs with
  | [] => []
  | [h] => h
  | _ => match fuel with
         | O => []
         | S fuel' => merkleRootFrom fuel' o (levelUp o hs)
         end
  end.

(** Modelled from the spec: the [root_hash] of section 4.1. *)
Definition merkleRoot (o : TreeOptions) (hs : list bytes) : bytes :=
  merkleRootFrom (length hs) o hs.

(** Modelled from the spec: the sibling of a node in its level, if it has
    one. *)
Definition sibling (hs : list bytes) (i : nat) : list bytes :=
  match (if Nat.even i then hs !! S i else hs !! pred i) with
  | Some h => [h]
  | None => []
  end.

(** Modelled from the spec: the [sorted_hashes] of section 4.1, the siblings
    from the leaf up to the root. *)
Fixpoint merklePathFrom (fuel : nat) (o : TreeOptions) (hs : list bytes) (i : nat)
  : list bytes :=
  match fuel with
  | O => []
  | S fuel' =>
      match hs with
      | [] | [_] => []
      | _ => sibling hs i ++ merklePathFrom fuel' o (levelUp o hs) (i `div` 2)
      end
  end.

(** Modelled from the spec: section 4.1, the builder accepts leaves, hashed
    or not, until the tree is generated. *)
Definition AddLeaf (leaf : LeafNode) (t : DocumentTree) : result DocumentTree :=
  if filled t then Err (Error "tree already filled")
  else Ok {| opts := opts t; leaves := leaves t ++ [leaf];
             filled := false; rootHash := rootHash t |}.

(** Modelled from the spec: several leaves at once. *)
Definition AddLeaves (ls : list LeafNode) (t : DocumentTree) : result DocumentTree :=
  if filled t then Err (Error "tree already filled")
  else Ok {| opts := opts t; leaves := leaves t ++ ls;
             filled := false; rootHash := rootHash t |}.

(** Modelled from the spec: section 4.1, the leaves of a message are those
    of its deterministic traversal. *)
Definition AddLeavesFromDocument `{Env} (m : Message) (t : DocumentTree)
  : result DocumentTree :=
  match FlattenMessage (opts t) m with
  | Err e => Err e
  | Ok ls => AddLeaves ls t
  end.

(** Modelled from the spec: section 4.1, generating hashes the leaves that
    are not hashed yet and computes the root. *)
Definition Generate (t : DocumentTree) : result DocumentTree :=
  if filled t then Err (Error "tree already filled")
  else
    let ls := map (λ n, if Hashed n then n
                        else HashNode (Hash (opts t)) (CompactProperties (opts t)) n)
                  (leaves t) in
    Ok {| opts := opts t; leaves := ls; filled := true;
          rootHash := merkleRoot (opts t) (map LeafHash ls) |}.

(** Modelled from the spec: the [root_hash] of a tree. *)
Definition RootHash (t : DocumentTree) : bytes := rootHash t.

(** Modelled from the spec: the properties of the leaves in leaf order. *)
Definition PropertyOrder (t : DocumentTree) : list Property :=
  map LeafProperty (leaves t).

(** Modelled from the spec: section 4.1, a field-addressed proof; it fails
    before [Generate] and for a property path without a leaf. *)
Definition CreateProof (field : string) (t : DocumentTree) : result Proof :=
  if negb (filled t) then Err (Error "tree not generated")
  else
    match list_find (λ n, ReadableName (LeafProperty n) = field) (leaves t) with
    | None => Err (Error ("no such field: " +:+ field))
    | Some (i, n) =>
        let hs := map LeafHash (leaves t) in
        Ok {| ProofProperty := field; ProofValue := Value n; ProofSalt := Salt n;
              ProofHash := LeafHash n;
              SortedHashes := merklePathFrom (length hs) (opts t) hs i |}
    end.

End proofs.

(** ** Package documents: constants and tree helpers *)

Definition CDRootField : string := "cd_root".
Definition DataRootField : string := "data_root".
Definition DocumentTypeField : string := "document_type".
Definition SignaturesRootField : string := "signatures_root".
Definition SigningRootField : string := "signing_root".
Definition idSize : nat := 32.
Definition nftByteCount : nat := 52.
Definition DRTreePrefix : string := "dr_tree".
Definition CDTreePrefix : string := "cd_tree".
Definition SigningTreePrefix : string := "signing_tree".
Definition SignaturesTreePrefix : string := "signatures_tree".

Import Byte.

Definition compactProperties (key : string) : bytes :=
  let m : gmap string bytes := list_to_map [
    (CDRootField, [x00; x00; x00; x07]);
    (DataRootField, [x00; x00; x00; x05]);
    (DocumentTypeField, [x00; x00; x00; x64]);
    (SignaturesRootField, [x00; x00; x00; x06]);
    (SigningRootField, [x00; x00; x00; x0a]);
    (CDTreePrefix, [x01; x00; x00; x00]);
    (SigningTreePrefix, [x02; x00; x00; x00]);
    (SignaturesTreePrefix, [x03; x00; x00; x00]);
    (DRTreePrefix, [x04; x00; x00; x00]) ] in
  default [] (m !! key).

(** [fmt.Sprintf("%s.%s", a, b)] *)
Definition dotted (a b : string) : string := a +:+ "." +:+ b.

Section documents.
Context `{Env}.

(** [NewLeafProperty] *)
Definition NewLeafProperty (literal : string) (compact : bytes) : Property :=
  proofs.NewProperty literal compact.

(** [NewDefaultTreeWithPrefix]: the options literal of the source sets
    these four fields; [salts] is an argument that it does not use. *)
Definition NewDefaultTreeWithPrefix (salts : Salts) (prefix : string)
    (compactPrefix : bytes) : DocumentTree :=
  let prop := if bool_decide (prefix ≠ "")
              then NewLeafProperty prefix compactPrefix
              else proofs.emptyProperty in
  proofs.NewDocumentTree
    {| CompactProperties := true; EnableHashSorting := true;
       Hash := sha256; ParentPrefix := prop |}.

(** [GenerateNewSalts]: [docSalts] is what [new(proofs.Salts)] gave. *)
Definition GenerateNewSalts (document : Message) (prefix : string)
    (compactPrefix : bytes) : result Salts :=
  let docSalts : Salts := [] in
  let t := NewDefaultTreeWithPrefix docSalts prefix compactPrefix in
  match proofs.AddLeavesFromDocument document t with
  | Err e => Err e
  | Ok _ => Ok docSalts
  end.

(** ** Roles and read rules (read_acls.go) *)

(** Modelled from the spec: [getRole] and [findRole] are in
    read_acls.go, which is not part of the sources; [getCollaborators]
    of coredocument.go calls [findRole] with a callback over
    [(rule index, role index, role)] and a list of actions.  By section
    4.4 a collaborator is reachable through a read rule: the rule names
    role keys, a key names an entry of [roles] (I6).  [findRole] visits,
    in order, the roles of every read rule whose action is among
    [actions], skips a key without an entry, and stops as soon as the
    callback returns true.  The state [St] is what the callback
    captures. *)
Definition getRole (key : bytes) (roles : list Role) : option Role :=
  List.find (λ r, bytes_eqb (RoleKey r) key) roles.

(** Modelled from the spec: the roles named by one read rule, for
    [findRole]. *)
Fixpoint findRoleInRule {St} (roles : list Role)
    (onRole : nat → nat → Role → St → bool * St)
    (i j : nat) (rks : list bytes) (s : St) : bool * St :=
  match rks with
  | [] => (false, s)
  | rk :: rks' =>
      match getRole rk roles with
      | None => findRoleInRule roles onRole i (S j) rks' s
      | Some role =>
          let '(stop, s') := onRole i j role s in
          if stop then (true, s')
          else findRoleInRule roles onRole i (S j) rks' s'
      end
  end.

(** Modelled from the spec: the read rules in order, for [findRole]. *)
Fixpoint findRoleInRules {St} (roles : list Role)
    (onRole : nat → nat → Role → St → bool * St)
    (actions : list Action) (i : nat) (rules : list ReadRule) (s : St)
  : bool * St :=
  match rules with
  | [] => (false, s)
  | rule :: rules' =>
      if bool_decide (ReadAction rule ∈ actions) then
        let '(found, s') := findRoleInRule roles onRole i 0 (ReadRoles rule) s in
        if found then (true, s')
        else findRoleInRules roles onRole actions (S i) rules' s'
      else findRoleInRules roles onRole actions (S i) rules' s
  end.

(** Modelled from the spec: [findRole] of read_acls.go, as described above. *)
Definition findRole {St} (cd : CoreDocumentPb)
    (onRole : nat → nat → Role → St → bool * St)
    (actions : list Action) (s : St) : bool * St :=
  findRoleInRules (Roles cd) onRole actions 0 (ReadRules cd) s.

(** ** coredocument.go *)

(** [populateVersions]: the hash pair is assigned before the error is
    looked at. *)
Definition populateVersions (cd : CoreDocumentPb) (prevCD : option CoreDocumentPb)
    (r : Rand) : option error * CoreDocumentPb * Rand :=
  let '(err, cd1, r1) :=
    match prevCD with
    | Some prev =>
        (None,
         set_CurrentPreimage (NextPreimage prev)
           (set_CurrentVersion (NextVersion prev)
              (set_PreviousVersion (CurrentVersion prev) cd)),
         r)
    | None =>
        let '(preimage, version, err, r') := GenerateHashPair idSize r in
        let cd' := set_CurrentVersion version (set_CurrentPreimage preimage cd) in
        (err, set_DocumentIdentifier (CurrentVersion cd') cd', r')
    end in
  match err with
  | Some e => (Some e, cd1, r1)
  | None =>
      let '(preimage, version, err, r2) := GenerateHashPair idSize r1 in
      (err, set_NextVersion version (set_NextPreimage preimage cd1), r2)
  end.

Definition newCoreDocument (r : Rand) : result CoreDocument * Rand :=
  let cd := set_SignatureData (Some {| Signatures := [] |}) emptyPb in
  match populateVersions cd None r with
  | (Some e, _, r') => (Err e, r')
  | (None, cd', r') => (Ok {| Document := cd' |}, r')
  end.

Definition ID (cd : CoreDocument) : bytes := DocumentIdentifier (Document cd).

(** [AppendSignatures] *)
Definition AppendSignatures (signs : list Signature) (cd : CoreDocument)
  : CoreDocument :=
  let d := Document cd in
  let sd := match SignatureDataOf d with
            | None => {| Signatures := [] |}
            | Some sd => sd
            end in
  {| Document :=
       set_SignatureData (Some {| Signatures := Signatures sd ++ signs |}) d |}.

(** [setSalts] *)
Definition setSalts : method CoreDocument unit := λ cd,
  match CoredocumentSalts (Document cd) with
  | Some _ => (Ok tt, cd)
  | None =>
      match GenerateNewSalts (MsgCoreDocument (Document cd)) CDTreePrefix
              (compactProperties CDTreePrefix) with
      | Err e => (Err e, cd)
      | Ok pSalts =>
          (Ok tt,
           {| Document :=
                set_CoredocumentSalts (ConvertToProtoSalts pSalts) (Document cd) |})
      end
  end.

(** [newRole] *)
Definition newRole (r : Rand) : Role * Rand :=
  let '(key, r') := RandomSlice idSize r in
  ({| RoleKey := key; Collaborators := []; RoleNfts := [] |}, r').

(** [newRoleWithCollaborators]: no role, and no random key, for no
    collaborators. *)
Definition newRoleWithCollaborators (collaborators : list DID) (r : Rand)
  : option Role * Rand :=
  if (length collaborators =? 0)%nat then (None, r)
  else
    let '(role, r') := newRole r in
    (Some {| RoleKey := RoleKey role;
             Collaborators := Collaborators role ++ map DIDBytes collaborators;
             RoleNfts := RoleNfts role |}, r').

(** [getCollaborators]: the callback appends to the captured [ids] and
    never stops the search. *)
Definition getCollaborators (cd : CoreDocument) (actions : list Action)
  : result (list DID) :=
  let '(_, ids) :=
    findRole (Document cd)
      (λ _ _ role (ids : list DID),
         if (length (Collaborators role) <? 1)%nat then (false, ids)
         else (false, ids ++ map NewDIDFromBytes (Collaborators role)))
      actions [] in
  Ok ids.

(** [filterCollaborators] *)
Definition filterCollaborators (cs : list DID) (filterIDs : list DID) : list DID :=
  let filter : gset string :=
    foldl (λ (filter : gset string) c, {[ ToLower (DIDString c) ]} ∪ filter)
          ∅ filterIDs in
  foldl (λ filteredIDs id,
           if bool_decide (ToLower (DIDString id) ∈ filter) then filteredIDs
           else filteredIDs ++ [id])
        [] cs.

Definition GetSignerCollaborators (cd : CoreDocument) (filterIDs : list DID)
  : result (list DID) :=
  match getCollaborators cd [ACTION_READ_SIGN] with
  | Err e => Err e
  | Ok cs => Ok (filterCollaborators cs filterIDs)
  end.

Definition GetCollaborators (cd : CoreDocument) (filterIDs : list DID)
  : result (list DID) :=
  match getCollaborators cd [ACTION_READ_SIGN; ACTION_READ] with
  | Err e => Err e
  | Ok cs => Ok (filterCollaborators cs filterIDs)
  end.

(** Modelled from the spec: [addNewReadRule],
    [addCollaboratorsToReadSignRules] and
    [addCollaboratorsToTransitionRules] are in files that are not part of
    the sources; [PrepareNewVersion] calls the last two one after the
    other.  By section 4.2 the new collaborators are added "under a fresh
    role with READ_SIGN and a transition rule": the first call appends the
    role that [newRoleWithCollaborators] makes and a read rule with
    action READ_SIGN that names it, the second appends a transition rule
    that names that same role, the one appended last, matching the
    document prefix.  Both do nothing for no collaborators. *)
Definition addNewReadRule (role : Role) (action : Action) (cd : CoreDocument)
  : CoreDocument :=
  let d := Document cd in
  {| Document :=
       set_ReadRules
         (ReadRules d ++ [ {| ReadRoles := [RoleKey role]; ReadAction := action |} ])
         (set_Roles (Roles d ++ [role]) d) |}.

(** Modelled from the spec: [addCollaboratorsToReadSignRules], as described
    above. *)
Definition addCollaboratorsToReadSignRules (collaborators : list DID)
    (cd : CoreDocument) (r : Rand) : CoreDocument * Rand :=
  match newRoleWithCollaborators collaborators r with
  | (None, r') => (cd, r')
  | (Some role, r') => (addNewReadRule role ACTION_READ_SIGN cd, r')
  end.

(** Modelled from the spec: [addCollaboratorsToTransitionRules], as
    described above. *)
Definition addCollaboratorsToTransitionRules (collaborators : list DID)
    (documentPrefix : bytes) (cd : CoreDocument) : CoreDocument :=
  let d := Document cd in
  if (length collaborators =? 0)%nat then cd
  else
    match last (Roles d) with
    | None => cd
    | Some role =>
        {| Document :=
             set_TransitionRules
               (TransitionRules d ++
                  [ {| RuleRoles := [RoleKey role];
                       MatchType := FIELD_MATCH_TYPE_PREFIX;
                       Field := documentPrefix;
                       RuleAction := TRANSITION_ACTION_EDIT |} ]) d |}
    end.

(** [PrepareNewVersion] *)
Definition PrepareNewVersion (cd : CoreDocument) (collaborators : list string)
    (initSalts : bool) (documentPrefix : bytes) (r : Rand)
  : result CoreDocument * Rand :=
  if negb (length (DocumentRoot (Document cd)) =? idSize)%nat
  then (Err (Error "Document root is invalid"), r)
  else
    match NewDIDsFromStrings collaborators with
    | Err e => (Err e, r)
    | Ok cs =>
        match GetCollaborators cd [] with
        | Err e => (Err e, r)
        | Ok oldCs =>
            let ucs := filterCollaborators cs oldCs in
            let cdp := {|
              DocumentIdentifier := DocumentIdentifier (Document cd);
              PreviousVersion := []; CurrentVersion := []; NextVersion := [];
              CurrentPreimage := []; NextPreimage := [];
              PreviousRoot := DocumentRoot (Document cd);
              DataRoot := []; SigningRoot := []; DocumentRoot := [];
              Roles := Roles (Document cd);
              ReadRules := ReadRules (Document cd);
              TransitionRules := TransitionRules (Document cd);
              Nfts := Nfts (Document cd);
              AccessTokens := AccessTokens (Document cd);
              SignatureDataOf := Some {| Signatures := [] |};
              SignatureDataSalts := None; CoredocumentSalts := None;
              EmbeddedData := None; EmbeddedDataSalts := None;
              Author := []; Timestamp := None |} in
            match populateVersions cdp (Some (Document cd)) r with
            | (Some e, _, r1) => (Err e, r1)
            | (None, cdp', r1) =>
                let ncd := {| Document := cdp' |} in
                let '(ncd1, r2) := addCollaboratorsToReadSignRules ucs ncd r1 in
                let ncd2 := addCollaboratorsToTransitionRules ucs documentPrefix ncd1 in
                if negb initSalts then (Ok ncd2, r2)
                else
                  match setSalts ncd2 with
                  | (Err e, _) => (Err (wrapErr "failed to init salts: " e), r2)
                  | (Ok _, ncd3) => (Ok ncd3, r2)
                  end
            end
        end
    end.

Definition set_SortedHashes (v : list bytes) (p : Proof) : Proof :=
  {| ProofProperty := ProofProperty p; ProofValue := ProofValue p;
     ProofSalt := ProofSalt p; ProofHash := ProofHash p; SortedHashes := v |}.

(** [TreeProof] *)
Record TreeProof := {
  tree : DocumentTree;
  treeHashes : list bytes }.

Definition newTreeProof (t : DocumentTree) (th : list bytes) : TreeProof :=
  {| tree := t; treeHashes := th |}.

(** [setSignatureDataSalts] *)
Definition setSignatureDataSalts : method CoreDocument (option (list DocumentSalt)) :=
  λ cd,
  match SignatureDataSalts (Document cd) with
  | Some s => (Ok (Some s), cd)
  | None =>
      match GenerateNewSalts (MsgSignatureData (SignatureDataOf (Document cd)))
              SignaturesTreePrefix (compactProperties SignaturesTreePrefix) with
      | Err e => (Err e, cd)
      | Ok proofSalts =>
          let cd' := {| Document :=
                          set_SignatureDataSalts (ConvertToProtoSalts proofSalts)
                            (Document cd) |} in
          (Ok (SignatureDataSalts (Document cd')), cd')
      end
  end.

(** [getSignatureDataTree] *)
Definition getSignatureDataTree : method CoreDocument DocumentTree :=
  signatureSalts <- setSignatureDataSalts ;;
  let tree := NewDefaultTreeWithPrefix (ConvertToProofSalts signatureSalts)
                SignaturesTreePrefix (compactProperties SignaturesTreePrefix) in
  cd <- mget ;;
  tree <- mlift (proofs.AddLeavesFromDocument
                   (MsgSignatureData (SignatureDataOf (Document cd))) tree) ;;
  tree <- mlift (proofs.Generate tree) ;;
  mret tree.

(** The two leaves of the document root tree. *)
Definition signingRootLeaf (cd : CoreDocument) : LeafNode :=
  {| LeafHash := SigningRoot (Document cd);
     Hashed := true;
     LeafProperty :=
       NewLeafProperty (dotted DRTreePrefix SigningRootField)
         (compactProperties DRTreePrefix ++ compactProperties SigningRootField);
     Value := []; Salt := [] |}.

Definition signaturesRootLeaf (signatureTree : DocumentTree) : LeafNode :=
  {| LeafHash := proofs.RootHash signatureTree;
     Hashed := true;
     LeafProperty :=
       NewLeafProperty (dotted DRTreePrefix SignaturesRootField)
         (compactProperties DRTreePrefix ++ compactProperties SignaturesRootField);
     Value := []; Salt := [] |}.

(** [DocumentRootTree] *)
Definition DocumentRootTree : method CoreDocument DocumentTree :=
  cd <- mget ;;
  if negb (length (SigningRoot (Document cd)) =? idSize)%nat
  then mfail (Error "signing root is invalid")
  else
    let tree := NewDefaultTreeWithPrefix
                  (ConvertToProofSalts (CoredocumentSalts (Document cd)))
                  DRTreePrefix (compactProperties DRTreePrefix) in
    tree <- mlift (proofs.AddLeaf (signingRootLeaf cd) tree) ;;
    signatureTree <- getSignatureDataTree ;;
    tree <- mlift (proofs.AddLeaf (signaturesRootLeaf signatureTree) tree) ;;
    tree <- mlift (proofs.Generate tree) ;;
    mret tree.

(** [documentTree] *)
Definition documentTree (docType : string) (cd : CoreDocument) : result DocumentTree :=
  let tree := NewDefaultTreeWithPrefix
                (ConvertToProofSalts (CoredocumentSalts (Document cd)))
                CDTreePrefix (compactProperties CDTreePrefix) in
  match proofs.AddLeavesFromDocument (MsgCoreDocument (Document cd)) tree with
  | Err e => Err e
  | Ok tree =>
      let dtProp := NewLeafProperty (dotted CDTreePrefix DocumentTypeField)
                      (compactProperties CDTreePrefix
                         ++ compactProperties DocumentTypeField) in
      let documentTypeNode :=
        proofs.HashNode sha256 true
          {| LeafProperty := dtProp; Salt := zeroBytes 32;
             Value := bytes_of_string docType; LeafHash := []; Hashed := false |} in
      match proofs.AddLeaf documentTypeNode tree with
      | Err e => Err e
      | Ok tree => proofs.Generate tree
      end
  end.

(** [GetSigningRootHash] *)
Definition GetSigningRootHash : method CoreDocument bytes :=
  tree <- DocumentRootTree ;;
  rootProof <- mlift (proofs.CreateProof (dotted DRTreePrefix SigningRootField) tree) ;;
  mret (ProofHash rootProof).

(** [GetSignaturesRootHash] *)
Definition GetSignaturesRootHash : method CoreDocument bytes :=
  tree <- getSignatureDataTree ;;
  mret (proofs.RootHash tree).

(** [getDataTreePrefix] *)
Definition getDataTreePrefix (dataTree : DocumentTree) : result string :=
  match proofs.PropertyOrder dataTree with
  | [] => Err (Error "no properties found in data tree")
  | p :: _ =>
      let fidx := Split (ReadableName p) "." in
      if (length fidx =? 1)%nat
      then Err (Error "no prefix found in data tree property")
      else Ok (fieldPrefix (ReadableName p))
  end.

(** The error of [generateProofs] for a prefix without a tree. *)
Definition ErrUnknownTreePrefix : error :=
  Error "failed to find prefix tree in supported list".

(** [generateProofs]: [prfs] is the slice built so far. *)
Fixpoint generateProofsFrom (prfs : list Proof) (fields : list string)
    (treeProofs : gmap string TreeProof) : result (list Proof) :=
  match fields with
  | [] => Ok prfs
  | f :: fields' =>
      match treeProofs !! fieldPrefix f with
      | None => Err ErrUnknownTreePrefix
      | Some t =>
          match proofs.CreateProof f (tree t) with
          | Err e => Err e
          | Ok proof =>
              let thashes := treeHashes t in
              let proof := set_SortedHashes (SortedHashes proof ++ thashes) proof in
              generateProofsFrom (prfs ++ [proof]) fields' treeProofs
          end
      end
  end.

Definition generateProofs (fields : list string)
    (treeProofs : gmap string TreeProof) : result (list Proof) :=
  generateProofsFrom [] fields treeProofs.

(** [CreateProofs]: the four assignments to the map are made in the order
    of the source, a later one replacing an earlier one with the same
    key. *)
Definition CreateProofs (docType : string) (dataTree : DocumentTree)
    (fields : list string) : method CoreDocument (list Proof) :=
  drTree <- DocumentRootTree ;;
  signatureTree <- mwrap "failed to generate signatures tree: " getSignatureDataTree ;;
  cd <- mget ;;
  cdTree <- mwrap "failed to generate core Document tree: "
              (mlift (documentTree docType cd)) ;;
  srHash <- mwrap "failed to generate signing root proofs: " GetSigningRootHash ;;
  let dataRoot := proofs.RootHash dataTree in
  let cdRoot := proofs.RootHash cdTree in
  dataPrefix <- mlift (getDataTreePrefix dataTree) ;;
  let treeProofs : gmap string TreeProof :=
    <[CDTreePrefix :=
        newTreeProof cdTree ([dataRoot] ++ [proofs.RootHash signatureTree])]>
    (<[SignaturesTreePrefix := newTreeProof signatureTree [srHash]]>
    (<[dataPrefix :=
         newTreeProof dataTree ([cdRoot] ++ [proofs.RootHash signatureTree])]>
    (<[DRTreePrefix := newTreeProof drTree []]> ∅))) in
  mlift (generateProofs fields treeProofs).

(** [CalculateDocumentRoot] *)
Definition CalculateDocumentRoot : method CoreDocument bytes :=
  tree <- DocumentRootTree ;;
  _ <- mmodify (λ cd, {| Document :=
                           set_DocumentRoot (proofs.RootHash tree) (Document cd) |}) ;;
  cd <- mget ;;
  mret (DocumentRoot (Document cd)).

(** ** Read access (read_acls.go) *)

(** [TokenRegistry]: the interface of the model file. *)
Record TokenRegistry := {
  OwnerOf : bytes → bytes → result bytes }.

(** Modelled from the spec: [AccountCanRead], [NFTOwnerCanRead],
    [ConstructNFT], [addNFTToReadRules], [getStoredNFT] and [AddNFT] are
    in read_acls.go, which is not part of the sources; their tests are
    (read_acls_test.go).  Section 4.4: a requester reads as a
    collaborator when it is among the collaborators reachable through a
    read rule; it reads as an NFT owner when the NFT is bound to the
    document and the token registry names its address as the owner.
    Section 4.2: [add_nft] appends to [nfts] and, with read access
    granted, appends a new role that holds the NFT and a read rule with
    action READ; a token of another length than 32 is refused.  The NFT
    of a role is the [nftByteCount] bytes of registry and token id.  The
    tests fix what the specification leaves open:
    [TestCoreDocument_NFTOwnerCanRead] reads with a nil registry and no
    NFT as soon as the account is a collaborator, and
    [TestCoreDocumentModel_AddNFT] finds one entry in [nfts], with the new
    token id, after a second NFT of the same registry was added to a
    version with a document root of 32 bytes. *)
Definition isDIDInRole (role : Role) (did : DID) : bool :=
  existsb (λ c, bytes_eqb c (DIDBytes did)) (Collaborators role).

(** Modelled from the spec: [AccountCanRead] of read_acls.go, the requester
    verification of section 4.4. *)
Definition AccountCanRead (cd : CoreDocument) (account : DID) : bool :=
  fst (findRole (Document cd)
         (λ _ _ role (s : unit), (isDIDInRole role account, s))
         [ACTION_READ; ACTION_READ_SIGN] tt).

(** Modelled from the spec: [ConstructNFT] of read_acls.go, the
    [nftByteCount] bytes of registry and token id. *)
Definition ConstructNFT (registry tokenID : bytes) : result bytes :=
  let nft := registry ++ tokenID in
  if negb (length nft =? nftByteCount)%nat then Err (Error "byte length mismatch")
  else Ok nft.

(** Modelled from the spec: whether a role holds the NFT. *)
Definition isNFTInRole (role : Role) (registry tokenID : bytes) : bool :=
  match ConstructNFT registry tokenID with
  | Err _ => false
  | Ok enft => existsb (λ n, bytes_eqb n enft) (RoleNfts role)
  end.

(** Modelled from the spec: [NFTOwnerCanRead] of read_acls.go, the NFT owner
    verification of section 4.4 after the collaborator check of its test. *)
Definition NFTOwnerCanRead (cd : CoreDocument) (tokenRegistry : TokenRegistry)
    (registry tokenID : bytes) (account : DID) : option error :=
  if AccountCanRead cd account then None
  else
    let found := fst (findRole (Document cd)
                        (λ _ _ role (s : unit), (isNFTInRole role registry tokenID, s))
                        [ACTION_READ] tt) in
    if negb found then Some (Error "nft not found in the Document")
    else
      match OwnerOf tokenRegistry registry tokenID with
      | Err e => Some (wrapErr "failed to get NFT owner: " e)
      | Ok owner =>
          if negb (bytes_eqb owner (DIDBytes account))
          then Some (Error "account not owner of the NFT")
          else None
      end.

(** Modelled from the spec: [addNFTToReadRules] of read_acls.go, a new role
    with the NFT and a read rule with action READ, then the salts. *)
Definition addNFTToReadRules (registry tokenID : bytes) (cd : CoreDocument)
    (r : Rand) : result CoreDocument * Rand :=
  match ConstructNFT registry tokenID with
  | Err e => (Err (wrapErr "failed to construct NFT: " e), r)
  | Ok nft =>
      let '(role, r') := newRole r in
      let role := {| RoleKey := RoleKey role; Collaborators := Collaborators role;
                     RoleNfts := RoleNfts role ++ [nft] |} in
      match setSalts (addNewReadRule role ACTION_READ cd) with
      | (Err e, _) => (Err e, r')
      | (Ok _, cd') => (Ok cd', r')
      end
  end.

(** Modelled from the spec: [getStoredNFT] of read_acls.go, the stored NFT
    of a registry and its index; the registry is the first 20 bytes of
    the registry id. *)
Definition getStoredNFT (nfts : list NFT) (registry : bytes) : option (nat * NFT) :=
  list_find (λ nft, take 20 (RegistryId nft) = registry) nfts.

(** Modelled from the spec: [AddNFT] of read_acls.go, on the next version of
    the document, as described above. *)
Definition AddNFT (grantReadAccess : bool) (registry tokenID : bytes)
    (cd : CoreDocument) (r : Rand) : result CoreDocument * Rand :=
  match PrepareNewVersion cd [] false [] r with
  | (Err e, r1) => (Err (wrapErr "failed to prepare new version: " e), r1)
  | (Ok ncd, r1) =>
      let d := Document ncd in
      let nfts :=
        match getStoredNFT (Nfts d) registry with
        | None =>
            Nfts d ++ [ {| RegistryId := registry ++ zeroBytes 12;
                           TokenId := tokenID |} ]
        | Some (i, nft) =>
            <[i := {| RegistryId := RegistryId nft; TokenId := tokenID |}]> (Nfts d)
        end in
      let ncd := {| Document := set_Nfts nfts d |} in
      if grantReadAccess then addNFTToReadRules registry tokenID ncd r1
      else
        match setSalts ncd with
        | (Err e, _) => (Err e, r1)
        | (Ok _, ncd') => (Ok ncd', r1)
        end
  end.

(** ** The document service (service.go) *)

(** Modelled from the spec: the document service is not part of the
    sources; its tests are (documents_test/service_test.go).  Section 4.7:
    records are kept under [(account, version)]; [get_current_version]
    "walks [next_version] links until a key is absent" and "must
    terminate even on cyclic [next_version] (detect and fail)"; section 9
    asks for a bounded traversal.  The walk starts at the record stored
    under the document identifier, remembers the versions it has seen,
    fails when a link leads to one of them, and takes no more steps than
    there are records.  A record stored under a version belongs to the
    document whose identifier it carries. *)
Definition ErrDocumentVersionNotFound : error := Error "document version not found".
(** Modelled from the spec: the failure of section 4.7 on cyclic
    [next_version]. *)
Definition ErrCyclicVersions : error := Error "cyclic next version".

(** Modelled from the spec: [get_version] of section 4.7, keyed by account
    and version. *)
Definition getVersion (account documentID version : bytes) (store : gmap (bytes * bytes) CoreDocument)
  : result CoreDocument :=
  match store !! (account, version) with
  | None => Err ErrDocumentVersionNotFound
  | Some model =>
      if bytes_eqb (ID model) documentID then Ok model
      else Err ErrDocumentVersionNotFound
  end.

(** Modelled from the spec: the walk of [get_current_version] of section
    4.7, bounded as section 9 asks. *)
Fixpoint walkVersions (steps : nat) (account documentID : bytes) (store : gmap (bytes * bytes) CoreDocument)
    (seen : gset bytes) (model : CoreDocument) : result CoreDocument :=
  let nextVersion := NextVersion (Document model) in
  match getVersion account documentID nextVersion store with
  | Err _ => Ok model
  | Ok temp =>
      if bool_decide (nextVersion ∈ seen) then Err ErrCyclicVersions
      else
        match steps with
        | O => Err ErrCyclicVersions
        | S steps' =>
            walkVersions steps' account documentID store
              ({[nextVersion]} ∪ seen) temp
        end
  end.

(** Modelled from the spec: [get_current_version] of section 4.7. *)
Definition GetCurrentVersion (account documentID : bytes) (store : gmap (bytes * bytes) CoreDocument)
  : result CoreDocument :=
  match getVersion account documentID documentID store with
  | Err e => Err e
  | Ok model =>
      walkVersions (size store) account documentID store {[documentID]} model
  end.

(** ** The p2p receiver handler *)

Inductive AccessType :=
| ACCESS_TYPE_INVALID
| ACCESS_TYPE_REQUESTER_VERIFICATION
| ACCESS_TYPE_NFT_OWNER_VERIFICATION
| ACCESS_TYPE_ACCESS_TOKEN_VERIFICATION.

Record AccessTokenRequest := {
  DelegatingDocumentIdentifier : bytes;
  AccessTokenId : bytes }.

Record GetDocumentRequest := {
  ReqDocumentIdentifier : bytes;
  ReqAccessType : AccessType;
  NftRegistryAddress : bytes;
  NftTokenId : bytes;
  ReqAccessTokenRequest : option AccessTokenRequest }.

Record GetDocumentResponse := { RespDocument : CoreDocumentPb }.

(** The methods of the interface [documents.Model] that the handler
    calls. *)
Record Model := {
  ModelAccountCanRead : DID → bool;
  ModelNFTOwnerCanRead : TokenRegistry → bytes → bytes → DID → option error;
  ModelATGranteeCanRead : bytes → bytes → DID → option error;
  ModelPackCoreDocument : result CoreDocumentPb }.

(** The fields of [Handler] that [GetDocument] uses; [docSrv] is
    [documents.Service] with its [GetCurrentVersion]. *)
Record Handler := {
  docSrv : bytes → result Model;
  tokenRegistry : TokenRegistry }.

(** [common.BytesToAddress]: the last 20 bytes, padded on the left. *)
Definition BytesToAddress (b : bytes) : bytes :=
  let b' := drop (length b - 20) b in
  zeroBytes (20 - length b') ++ b'.

(** [validateDocumentAccess] *)
Definition validateDocumentAccess (srv : Handler) (docReq : GetDocumentRequest)
    (m : Model) (peer : DID) : option error :=
  match ReqAccessType docReq with
  | ACCESS_TYPE_REQUESTER_VERIFICATION =>
      if negb (ModelAccountCanRead m peer)
      then Some (Error "requester does not have access")
      else None
  | ACCESS_TYPE_NFT_OWNER_VERIFICATION =>
      let registry := BytesToAddress (NftRegistryAddress docReq) in
      match ModelNFTOwnerCanRead m (tokenRegistry srv) registry
              (NftTokenId docReq) peer with
      | Some _ => Some (Error "requester does not have access")
      | None => None
      end
  | ACCESS_TYPE_ACCESS_TOKEN_VERIFICATION =>
      match ReqAccessTokenRequest docReq with
      | None => Some (Error "access token request is nil")
      | Some atr =>
          match docSrv srv (DelegatingDocumentIdentifier atr) with
          | Err err => Some err
          | Ok m =>
              match ModelATGranteeCanRead m (AccessTokenId atr)
                      (ReqDocumentIdentifier docReq) peer with
              | Some err => Some err
              | None => None
              end
          end
      end
  | ACCESS_TYPE_INVALID => Some (Error "invalid access type")
  end.

(** The [err] variable of a call that returned [(value, err)]. *)
Definition errOf {A} (r : result A) : option error :=
  match r with Ok _ => None | Err e => Some e end.

(** [GetDocument]: the Go pair [(response, error)], either of which may be
    nil.  When the access validation fails the source returns the [err]
    of the call to [GetCurrentVersion]. *)
Definition GetDocument (srv : Handler) (docReq : GetDocumentRequest)
    (requester : DID) : option GetDocumentResponse * option error :=
  let fetched := docSrv srv (ReqDocumentIdentifier docReq) in
  match fetched with
  | Err err => (None, Some err)
  | Ok model =>
      let err := errOf fetched in
      match validateDocumentAccess srv docReq model requester with
      | Some _ => (None, err)
      | None =>
          match ModelPackCoreDocument model with
          | Err err => (None, Some err)
          | Ok cd => (Some {| RespDocument := cd |}, None)
          end
      end
  end.

End documents.

(** ** Notions used to state the properties *)

Section notions.
Context `{Env}.

(** The fields of the lineage, which only [populateVersions] and the
    literal of [PrepareNewVersion] assign. *)
Definition lineage (d : CoreDocumentPb) : list bytes :=
  [ DocumentIdentifier d; PreviousVersion d; CurrentVersion d; NextVersion d;
    CurrentPreimage d; NextPreimage d; PreviousRoot d ].

(** The roles that a list of role keys names, keys without a role left
    out. *)
Definition rolesOfKeys (roles : list Role) (rks : list bytes) : list Role :=
  flat_map (λ rk, match getRole rk roles with
                  | Some role => [role]
                  | None => []
                  end) rks.

(** The roles that the read rules with one of [actions] name. *)
Definition rolesOfRules (roles : list Role) (actions : list Action)
    (rules : list ReadRule) : list Role :=
  flat_map (λ rule, if bool_decide (ReadAction rule ∈ actions)
                    then rolesOfKeys roles (ReadRoles rule) else []) rules.

Definition reachableRoles (d : CoreDocumentPb) (actions : list Action) : list Role :=
  rolesOfRules (Roles d) actions (ReadRules d).

(** The collaborators of a document: those of the roles reachable
    through a read rule with action READ_SIGN or READ. *)
Definition collaboratorsOf (cd : CoreDocument) : list DID :=
  flat_map (λ role, map NewDIDFromBytes (Collaborators role))
    (reachableRoles (Document cd) [ACTION_READ_SIGN; ACTION_READ]).

(** The options that [NewDefaultTreeWithPrefix] gives a tree with a
    prefix. *)
Definition treeOptions (prefix : string) : TreeOptions :=
  {| CompactProperties := true; EnableHashSorting := true; Hash := sha256;
     ParentPrefix := NewLeafProperty prefix (compactProperties prefix) |}.

(** The generated tree over a sequence of leaves. *)
Definition treeOver (o : TreeOptions) (ls : list LeafNode) : DocumentTree :=
  let hashed := map (λ n, if Hashed n then n
                          else proofs.HashNode (Hash o) (CompactProperties o) n) ls in
  {| opts := o; leaves := hashed; filled := true;
     rootHash := proofs.merkleRoot o (map LeafHash hashed) |}.

(** The signatures tree: the tree with prefix signatures_tree over the
    leaves of the signature data. *)
Definition signaturesTreeOf (sd : option SignatureData) : result DocumentTree :=
  match FlattenMessage (treeOptions SignaturesTreePrefix) (MsgSignatureData sd) with
  | Err e => Err e
  | Ok ls => Ok (treeOver (treeOptions SignaturesTreePrefix) ls)
  end.

(** The document after the salts of the signature data were cached. *)
Definition withSignatureSalts (cd : CoreDocument) : CoreDocument :=
  match SignatureDataSalts (Document cd) with
  | Some _ => cd
  | None =>
      {| Document :=
           set_SignatureDataSalts (ConvertToProtoSalts []) (Document cd) |}
  end.

(** The signatures of a document. *)
Definition signaturesOf (cd : CoreDocument) : list Signature :=
  match SignatureDataOf (Document cd) with
  | Some sd => Signatures sd
  | None => []
  end.

(** The signatures root of a list of signatures. *)
Definition signaturesRootOf (sigs : list Signature) : result bytes :=
  match signaturesTreeOf (Some {| Signatures := sigs |}) with
  | Ok t => Ok (proofs.RootHash t)
  | Err e => Err e
  end.

(** A proof of [f] in the tree [t], followed by the hashes [hs]. *)
Definition composed (t : DocumentTree) (hs : list bytes) (f : string) (p : Proof)
  : Prop :=
  ∃ base, proofs.CreateProof f t = Ok base ∧
          p = set_SortedHashes (SortedHashes base ++ hs) base.

(** The map of [CreateProofs] from prefixes to trees and the hashes to
    append, for the trees it has built. *)
Definition supportedTrees (cd : CoreDocument)
    (dataTree sigTree cdTree : DocumentTree) (dataPrefix : string)
  : gmap string TreeProof :=
  <[CDTreePrefix :=
      newTreeProof cdTree [proofs.RootHash dataTree; proofs.RootHash sigTree]]>
  (<[SignaturesTreePrefix := newTreeProof sigTree [SigningRoot (Document cd)]]>
  (<[dataPrefix :=
       newTreeProof dataTree [proofs.RootHash cdTree; proofs.RootHash sigTree]]>
  (<[DRTreePrefix :=
       newTreeProof
         (treeOver (treeOptions DRTreePrefix)
            [signingRootLeaf cd; signaturesRootLeaf sigTree]) []]> ∅))).

(** The NFT of [registry] and [tokenID] is bound with read access: a
    read rule with action READ names a role that holds it. *)
Definition boundWithReadAccess (cd : CoreDocument) (registry tokenID : bytes) : Prop :=
  length (registry ++ tokenID) = nftByteCount ∧
  ∃ role, role ∈ reachableRoles (Document cd) [ACTION_READ] ∧
          registry ++ tokenID ∈ RoleNfts role.

(** The registry names the address of [account] as the owner. *)
Definition reportsOwner (tr : TokenRegistry) (registry tokenID : bytes)
    (account : DID) : Prop :=
  OwnerOf tr registry tokenID = Ok (DIDBytes account).

(** The walk of the document service from the record [m] along the
    stored next versions [vs] to the record [last]. *)
Inductive follows (account documentID : bytes)
    (store : gmap (bytes * bytes) CoreDocument)
  : CoreDocument → list bytes → CoreDocument → Prop :=
| follows_here m : follows account documentID store m [] m
| follows_next m m' vs last :
    getVersion account documentID (NextVersion (Document m)) store = Ok m' →
    follows account documentID store m' vs last →
    follows account documentID store m (NextVersion (Document m) :: vs) last.

(** Three sentences of the specification as they are written, to be
    compared with what the code does. *)

(** P5: appending a signature that is present leaves the signatures root
    as it is. *)
Definition signatureIdempotence (cd : CoreDocument) (s : Signature) : Prop :=
  s ∈ signaturesOf cd →
  fst (GetSignaturesRootHash (AppendSignatures [s] cd))
  = fst (GetSignaturesRootHash cd).

(** [add_nft] appends to [nfts], also when an NFT of the registry is
    present. *)
Definition addNFTAlwaysAppends (grantReadAccess : bool) (registry tokenID : bytes)
    (cd : CoreDocument) (r : Rand) : Prop :=
  length (DocumentRoot (Document cd)) = 32 →
  length registry = 20 → length tokenID = 32 →
  ∀ ncd r', AddNFT grantReadAccess registry tokenID cd r = (Ok ncd, r') →
    Nfts (Document ncd)
    = Nfts (Document cd)
        ++ [ {| RegistryId := registry ++ zeroBytes 12; TokenId := tokenID |} ].

(** P7: with the NFT bound with read access, a requester reads exactly
    when the registry names it as the owner. *)
Definition nftAccessIffOwner (cd : CoreDocument) (tr : TokenRegistry)
    (registry tokenID : bytes) : Prop :=
  boundWithReadAccess cd registry tokenID →
  ∀ account, NFTOwnerCanRead cd tr registry tokenID account = None
             ↔ reportsOwner tr registry tokenID account.

End notions.

(** ** A small environment to run the model on

    A 32-byte checksum in the place of sha256, a counter in the place of
    the random source, identities as byte strings written in hexadecimal
    with capital letters, and a flattening that lists the fields of a
    message under the prefix of the tree. *)

Module Sample.

Definition byteOfN (n : N) : byte := default x00 (Byte.of_N (n `mod` 256)%N).

Fixpoint bytesOfN (len : nat) (n : N) : bytes :=
  match len with
  | O => []
  | S len' => bytesOfN len' (n `div` 256)%N ++ [byteOfN n]
  end.

Definition checksum (b : bytes) : bytes :=
  bytesOfN 32
    (foldl (λ acc x, ((acc * 257 + Byte.to_N x + 1) `mod` (2 ^ 256))%N) 7%N b).

Definition randomSlice (n : nat) (r : nat) : bytes * nat :=
  (replicate n (byteOfN (N.of_nat r)), S r).

Definition generateHashPair (n : nat) (r : nat) : bytes * bytes * option error * nat :=
  let '(preimage, r') := randomSlice n r in
  (preimage, checksum preimage, None, r').

Definition hexDigit (n : N) : ascii :=
  if (n <? 10)%N then ascii_of_N (48 + n) else ascii_of_N (55 + n).

Definition hexValue (c : ascii) : option N :=
  let n := N_of_ascii c in
  if (48 <=? n)%N && (n <=? 57)%N then Some (n - 48)%N
  else if (65 <=? n)%N && (n <=? 70)%N then Some (n - 55)%N
  else if (97 <=? n)%N && (n <=? 102)%N then Some (n - 87)%N
  else None.

Fixpoint hexOfBytes (b : bytes) : string :=
  match b with
  | [] => ""
  | x :: b' =>
      String (hexDigit (Byte.to_N x `div` 16)%N)
        (String (hexDigit (Byte.to_N x `mod` 16)%N) (hexOfBytes b'))
  end.

Fixpoint bytesOfHex (s : string) : option bytes :=
  match s with
  | EmptyString => Some []
  | String hi (String lo s') =>
      match hexValue hi, hexValue lo, bytesOfHex s' with
      | Some h, Some l, Some b => Some (byteOfN (h * 16 + l) :: b)
      | _, _, _ => None
      end
  | String _ EmptyString => None
  end.

Definition didString (d : bytes) : string := "0x" +:+ hexOfBytes d.

Definition didFromString (s : string) : result bytes :=
  match s with
  | String "0" (String "x" h) =>
      match bytesOfHex h with
      | Some b => if (length b =? 20)%nat then Ok b
                  else Err (Error "malformed address provided")
      | None => Err (Error "malformed address provided")
      end
  | _ => Err (Error "malformed address provided")
  end.

Fixpoint didsFromStrings (ss : list string) : result (list bytes) :=
  match ss with
  | [] => Ok []
  | s :: ss' =>
      match didFromString s with
      | Err e => Err e
      | Ok d => match didsFromStrings ss' with
                | Err e => Err e
                | Ok ds => Ok (d :: ds)
                end
      end
  end.

Definition leafOf (o : TreeOptions) (name : string) (compact v : bytes) : LeafNode :=
  {| LeafProperty :=
       proofs.NewProperty (ReadableName (ParentPrefix o) +:+ "." +:+ name)
         (CompactName (ParentPrefix o) ++ compact);
     Value := v; Salt := zeroBytes 32; LeafHash := []; Hashed := false |}.

Definition signatureLeaves (o : TreeOptions) (i : nat) (s : Signature)
  : list LeafNode :=
  let at_ := "signatures[" +:+ pretty i +:+ "]." in
  let ix := byteOfN (N.of_nat i) in
  [ leafOf o (at_ +:+ "signer_id") [x01; ix; x01] (SignerId s);
    leafOf o (at_ +:+ "public_key") [x01; ix; x02] (PublicKey s);
    leafOf o (at_ +:+ "signature") [x01; ix; x03] (SignatureBytes s);
    leafOf o (at_ +:+ "timestamp") [x01; ix; x04] (SigTimestamp s) ].

Definition flattenMessage (o : TreeOptions) (m : Message) : result (list LeafNode) :=
  match m with
  | MsgSignatureData sd =>
      let sigs := match sd with Some sd => Signatures sd | None => [] end in
      Ok (leafOf o "signatures.length" [x01] [byteOfN (N.of_nat (length sigs))]
            :: concat (imap (signatureLeaves o) sigs))
  | MsgCoreDocument d =>
      Ok [ leafOf o "document_identifier" [x09] (DocumentIdentifier d);
           leafOf o "current_version" [x03] (CurrentVersion d);
           leafOf o "next_version" [x16] (NextVersion d);
           leafOf o "previous_root" [x02] (PreviousRoot d) ]
  end.

Global Instance env : Env := {|
  sha256 := checksum;
  Rand := nat;
  RandomSlice := randomSlice;
  GenerateHashPair := generateHashPair;
  DID := bytes;
  NewDIDFromBytes := BytesToAddress;
  DIDBytes := id;
  DIDString := didString;
  NewDIDsFromStrings := didsFromStrings;
  FlattenMessage := flattenMessage;
  ConvertToProtoSalts := Some;
  ConvertToProofSalts := default [] |}.

(** Documents, trees, a registry, stores and a handler to run on. *)

Definition didA : bytes := replicate 20 xaa.
Definition didB : bytes := replicate 20 xbb.
Definition didC : bytes := replicate 20 xcc.
Definition registry : bytes := replicate 20 xf7.
Definition tokenA : bytes := replicate 32 x01.
Definition tokenB : bytes := replicate 32 x02.
Definition keyA : bytes := replicate 32 x0a.
Definition keyN : bytes := replicate 32 x0b.
Definition v0 : bytes := replicate 32 x50.
Definition v1 : bytes := replicate 32 x51.
Definition v2 : bytes := replicate 32 x52.
Definition v3 : bytes := replicate 32 x53.
Definition account : bytes := replicate 20 x99.

Definition sigA : Signature :=
  {| SignerId := didA; PublicKey := [x01]; SignatureBytes := [x02; x03];
     SigTimestamp := [x04] |}.

(** A signed and anchored first version: [didA] is its collaborator, and
    the NFT of [registry] with [tokenA] is bound with read access. *)
Definition anchored : CoreDocument :=
  {| Document := {|
       DocumentIdentifier := v0; PreviousVersion := []; CurrentVersion := v0;
       NextVersion := v1; CurrentPreimage := replicate 32 x60;
       NextPreimage := replicate 32 x61; PreviousRoot := [];
       DataRoot := replicate 32 x22; SigningRoot := replicate 32 x33;
       DocumentRoot := replicate 32 x44;
       Roles := [ {| RoleKey := keyA; Collaborators := [didA]; RoleNfts := [] |};
                  {| RoleKey := keyN; Collaborators := [];
                     RoleNfts := [registry ++ tokenA] |} ];
       ReadRules := [ {| ReadRoles := [keyA]; ReadAction := ACTION_READ_SIGN |};
                      {| ReadRoles := [keyN]; ReadAction := ACTION_READ |} ];
       TransitionRules := [];
       Nfts := [ {| RegistryId := registry ++ zeroBytes 12; TokenId := tokenA |} ];
       AccessTokens := [];
       SignatureDataOf := Some {| Signatures := [sigA] |};
       SignatureDataSalts := None; CoredocumentSalts := None;
       EmbeddedData := None; EmbeddedDataSalts := None;
       Author := didA; Timestamp := None |} |}.

(** The collaborators supplied for a next version: [didA] in lower case
    and [didC]; the compact prefix of purchase orders; the first state of
    the random source. *)
Definition collaborators : list string :=
  [ "0xaaaaaaaaaaaaaaaaaaaaaaaaaaaaaaaaaaaaaaaa";
    "0xCCCCCCCCCCCCCCCCCCCCCCCCCCCCCCCCCCCCCCCC" ].
Definition poPrefix : bytes := [x00; x02; x00; x00].
Definition start : @Rand env := 0%nat.

(** A document without roots. *)
Definition draft : CoreDocument := {| Document := emptyPb |}.

(** A token registry that names [didB] as the owner of every token. *)
Definition ownedByB : TokenRegistry := {| OwnerOf := λ _ _, Ok didB |}.

(** The data tree of a purchase order with two fields. *)
Definition poOptions : TreeOptions :=
  opts (NewDefaultTreeWithPrefix [] "po" [x00; x02; x00; x00]).

Definition dataTree : DocumentTree :=
  treeOver poOptions
    [ leafOf poOptions "po_number" [x00; x01] [x31; x32];
      leafOf poOptions "currency" [x00; x0d] [x45; x55; x52] ].

(** The record of a version with a next version. *)
Definition versionRecord (version next : bytes) : CoreDocument :=
  {| Document := set_NextVersion next
                   (set_CurrentVersion version
                      (set_DocumentIdentifier v0 emptyPb)) |}.

(** Three versions, the last one pointing to a version that is not
    stored. *)
Definition chainStore : gmap (bytes * bytes) CoreDocument :=
  <[(account, v0) := versionRecord v0 v1]>
  (<[(account, v1) := versionRecord v1 v2]>
  (<[(account, v2) := versionRecord v2 v3]> ∅)).

(** Three versions, the last one pointing back to the second. *)
Definition cyclicStore : gmap (bytes * bytes) CoreDocument :=
  <[(account, v0) := versionRecord v0 v1]>
  (<[(account, v1) := versionRecord v1 v2]>
  (<[(account, v2) := versionRecord v2 v1]> ∅)).

(** A model that nobody may read, behind a handler that finds it. *)
Definition sealedModel : Model :=
  {| ModelAccountCanRead := λ _, false;
     ModelNFTOwnerCanRead := λ _ _ _ _, Some (Error "no access");
     ModelATGranteeCanRead := λ _ _ _, Some (Error "no access");
     ModelPackCoreDocument := Ok (Document anchored) |}.

Definition handler : Handler :=
  {| docSrv := λ _, Ok sealedModel; tokenRegistry := ownedByB |}.

Definition request : GetDocumentRequest :=
  {| ReqDocumentIdentifier := v0;
     ReqAccessType := ACCESS_TYPE_REQUESTER_VERIFICATION;
     NftRegistryAddress := []; NftTokenId := [];
     ReqAccessTokenRequest := None |}.

(** The steps of [TestCoreDocumentModel_AddNFT]: a new document gets a
    document root and an NFT, then another document root and a second NFT
    of the same registry.  The lengths that the test asserts after each
    step: [nfts], the registry id of the first NFT, read rules, roles,
    the NFTs of the newest role; and the token id stored for the
    registry. *)
Definition addNFTReport (cd : CoreDocument) (role : nat)
  : list nat * option bytes :=
  let d := Document cd in
  ([ length (Nfts d);
     length (from_option RegistryId [] (Nfts d !! 0%nat));
     length (ReadRules d);
     length (Roles d);
     length (from_option RoleNfts [] (Roles d !! role)) ],
   (λ n, TokenId (snd n)) <$> getStoredNFT (Nfts d) registry).

Definition addNFTTest
  : option ((list nat * option bytes) * (list nat * option bytes)) :=
  match newCoreDocument start with
  | (Ok cd, r1) =>
      let cd := {| Document := set_DocumentRoot (replicate 32 x44) (Document cd) |} in
      match AddNFT true registry tokenA cd r1 with
      | (Ok cd1, r2) =>
          let cd1' := {| Document :=
                           set_DocumentRoot (replicate 32 x45) (Document cd1) |} in
          match AddNFT true registry tokenB cd1' r2 with
          | (Ok cd2, _) => Some (addNFTReport cd1 0, addNFTReport cd2 1)
          | (Err _, _) => None
          end
      | (Err _, _) => None
      end
  | (Err _, _) => None
  end.

(** The steps of [TestReadAccessValidator_AccountCanRead]: the next
    version of a new document with a document root, prepared for [didC];
    whether [didB] and [didC] can read it. *)
Definition accountCanReadTest : option (bool * bool) :=
  match newCoreDocument start with
  | (Ok cd, r1) =>
      let cd := {| Document := set_DocumentRoot (replicate 32 x44) (Document cd) |} in
      match PrepareNewVersion cd [didString didC] false [] r1 with
      | (Ok ncd, _) => Some (AccountCanRead ncd didB, AccountCanRead ncd didC)
      | (Err _, _) => None
      end
  | (Err _, _) => None
  end.

(** The steps of [TestCoreDocument_NFTOwnerCanRead] on a document whose
    only collaborator is [didA]: whether each call returns no error. *)
Definition collaboratorOnly : CoreDocument :=
  {| Document :=
       set_ReadRules [ {| ReadRoles := [keyA]; ReadAction := ACTION_READ_SIGN |} ]
         (set_Roles [ {| RoleKey := keyA; Collaborators := [didA]; RoleNfts := [] |} ]
            emptyPb) |}.

Definition nftOwnerTest : option (list bool) :=
  let granted (e : option error) : bool :=
    match e with None => true | Some _ => false end in
  let failing : TokenRegistry :=
    {| OwnerOf := λ _ _, Err (Error "failed to get owner of") |} in
  let ownedBy (owner : bytes) : TokenRegistry := {| OwnerOf := λ _ _, Ok owner |} in
  let cd := collaboratorOnly in
  match addNFTToReadRules registry tokenA cd start with
  | (Ok cd', _) =>
      Some [ granted (NFTOwnerCanRead cd failing registry [] didA);
             granted (NFTOwnerCanRead cd failing registry tokenA didB);
             granted (NFTOwnerCanRead cd' failing registry tokenA didB);
             granted (NFTOwnerCanRead cd' (ownedBy didC) registry tokenA didB);
             granted (NFTOwnerCanRead cd' (ownedBy didB) registry tokenA didB) ]
  | (Err _, _) => None
  end.

End Sample.

(** * Properties *)

Arguments treeOptions : simpl never.

Section properties.
Context `{Env}.

(** ** Helper lemmas *)

Lemma populateVersions_prev cdp prev r err cdp' r' :
  populateVersions cdp (Some prev) r = (err, cdp', r') →
  ∃ preimage version,
    GenerateHashPair idSize r = (preimage, version, err, r') ∧
    cdp' = set_NextVersion version (set_NextPreimage preimage
             (set_CurrentPreimage (NextPreimage prev)
                (set_CurrentVersion (NextVersion prev)
                   (set_PreviousVersion (CurrentVersion prev) cdp)))).
Proof.
  unfold populateVersions. cbn.
  destruct (GenerateHashPair idSize r) as [[[preimage version] e] r2].
  intros [= <- <- <-]. eauto.
Qed.

Lemma setSalts_fields cd u cd' :
  setSalts cd = (Ok u, cd') →
  ∃ salts, Document cd' = set_CoredocumentSalts salts (Document cd).
Proof.
  unfold setSalts. destruct cd as [d]; cbn.
  destruct (CoredocumentSalts d) eqn:Hs.
  - intros [= <- <-]. exists (Some l). destruct d; cbn in *; by subst.
  - destruct (GenerateNewSalts _ _ _); intros [= <- <-]; eauto.
Qed.

Lemma addCollaboratorsToReadSignRules_fields ucs cd r cd' r' :
  addCollaboratorsToReadSignRules ucs cd r = (cd', r') →
  (ucs = [] ∧ cd' = cd ∧ r' = r) ∨
  (ucs ≠ [] ∧ ∃ key,
      RandomSlice idSize r = (key, r') ∧
      cd' = addNewReadRule
              {| RoleKey := key; Collaborators := map DIDBytes ucs; RoleNfts := [] |}
              ACTION_READ_SIGN cd).
Proof.
  unfold addCollaboratorsToReadSignRules, newRoleWithCollaborators, newRole.
  destruct ucs as [|c ucs]; cbn.
  - intros [= <- <-]. by left.
  - destruct (RandomSlice idSize r) as [key r2]. cbn. intros [= <- <-].
    right. split; [done|]. by exists key.
Qed.

(** What a successful [PrepareNewVersion] went through. *)
Lemma PrepareNewVersion_Ok cd collaborators initSalts documentPrefix r ncd r' :
  PrepareNewVersion cd collaborators initSalts documentPrefix r = (Ok ncd, r') →
  length (DocumentRoot (Document cd)) = idSize ∧
  ∃ cs oldCs preimage version r1 ncd1 salts,
    NewDIDsFromStrings collaborators = Ok cs ∧
    GetCollaborators cd [] = Ok oldCs ∧
    GenerateHashPair idSize r = (preimage, version, None, r1) ∧
    addCollaboratorsToReadSignRules (filterCollaborators cs oldCs)
      {| Document := {|
           DocumentIdentifier := DocumentIdentifier (Document cd);
           PreviousVersion := CurrentVersion (Document cd);
           CurrentVersion := NextVersion (Document cd);
           NextVersion := version;
           CurrentPreimage := NextPreimage (Document cd);
           NextPreimage := preimage;
           PreviousRoot := DocumentRoot (Document cd);
           DataRoot := []; SigningRoot := []; DocumentRoot := [];
           Roles := Roles (Document cd);
           ReadRules := ReadRules (Document cd);
           TransitionRules := TransitionRules (Document cd);
           Nfts := Nfts (Document cd);
           AccessTokens := AccessTokens (Document cd);
           SignatureDataOf := Some {| Signatures := [] |};
           SignatureDataSalts := None; CoredocumentSalts := None;
           EmbeddedData := None; EmbeddedDataSalts := None;
           Author := []; Timestamp := None |} |} r1 = (ncd1, r') ∧
    Document ncd =
      set_CoredocumentSalts salts
        (Document (addCollaboratorsToTransitionRules
                     (filterCollaborators cs oldCs) documentPrefix ncd1)).
Proof.
  unfold PrepareNewVersion. intros Hprep.
  destruct (length (DocumentRoot (Document cd)) =? idSize)%nat eqn:Hlen;
    cbn [negb] in Hprep; [|done].
  apply Nat.eqb_eq in Hlen. split; [done|].
  destruct (NewDIDsFromStrings collaborators) as [cs|]; [|done].
  destruct (GetCollaborators cd []) as [oldCs|]; [|done].
  destruct (populateVersions _ _ r) as [[err cdp'] r1] eqn:Hpop.
  apply populateVersions_prev in Hpop as (preimage & version & Hgen & ->).
  destruct err; [done|].
  destruct (addCollaboratorsToReadSignRules _ _ r1) as [ncd1 r2] eqn:Hrs.
  destruct initSalts; cbn [negb] in Hprep.
  - destruct (setSalts _) as [[u|e] ncd3] eqn:Hsalts; [|done].
    injection Hprep as <- <-. apply setSalts_fields in Hsalts as [salts Hsalts].
    exists cs, oldCs, preimage, version, r1, ncd1, salts. by repeat split.
  - injection Hprep as <- <-.
    exists cs, oldCs, preimage, version, r1, ncd1,
      (CoredocumentSalts (Document (addCollaboratorsToTransitionRules
         (filterCollaborators cs oldCs) documentPrefix ncd1))).
    repeat split; try done.
    by destruct (Document (addCollaboratorsToTransitionRules _ _ _)).
Qed.

Lemma addCollaboratorsToTransitionRules_lineage ucs prefix cd :
  lineage (Document (addCollaboratorsToTransitionRules ucs prefix cd))
  = lineage (Document cd).
Proof.
  unfold addCollaboratorsToTransitionRules.
  destruct (length ucs =? 0)%nat; [done|].
  by destruct (last (Roles (Document cd))).
Qed.

Lemma addCollaboratorsToReadSignRules_lineage ucs cd r cd' r' :
  addCollaboratorsToReadSignRules ucs cd r = (cd', r') →
  lineage (Document cd') = lineage (Document cd).
Proof.
  intros [(_ & -> & _)|(_ & key & _ & ->)]%addCollaboratorsToReadSignRules_fields; done.
Qed.

(** ** The version chain *)

(** C7.  [PrepareNewVersion] on a document whose document root does not
    have 32 bytes returns the error "Document root is invalid", whatever
    the collaborators, and no new version; the random source is not
    touched. *)
Theorem PrepareNewVersion_invalid_root cd collaborators initSalts documentPrefix r :
  length (DocumentRoot (Document cd)) ≠ 32 →
  PrepareNewVersion cd collaborators initSalts documentPrefix r
  = (Err (Error "Document root is invalid"), r).
Proof.
  intros Hlen. unfold PrepareNewVersion.
  destruct (length (DocumentRoot (Document cd)) =? idSize)%nat eqn:E; [|done].
  by apply Nat.eqb_eq in E.
Qed.

(** C4.  The version that [PrepareNewVersion] returns for a document with
    a document root of 32 bytes continues the chain: its previous version
    is the current version of the predecessor, its current version and
    preimage are the predecessor's next version and preimage, it has the
    same document identifier, and its previous root is the predecessor's
    document root. *)
Theorem PrepareNewVersion_version_chain cd collaborators initSalts documentPrefix r ncd r' :
  length (DocumentRoot (Document cd)) = 32 →
  PrepareNewVersion cd collaborators initSalts documentPrefix r = (Ok ncd, r') →
  PreviousVersion (Document ncd) = CurrentVersion (Document cd) ∧
  CurrentVersion (Document ncd) = NextVersion (Document cd) ∧
  CurrentPreimage (Document ncd) = NextPreimage (Document cd) ∧
  DocumentIdentifier (Document ncd) = DocumentIdentifier (Document cd) ∧
  PreviousRoot (Document ncd) = DocumentRoot (Document cd).
Proof.
  intros _ Hprep.
  apply PrepareNewVersion_Ok in Hprep
    as (_ & cs & oldCs & preimage & version & r1 & ncd1 & salts
          & _ & _ & _ & Hrs & Hdoc).
  apply addCollaboratorsToReadSignRules_lineage in Hrs.
  pose proof (addCollaboratorsToTransitionRules_lineage
                (filterCollaborators cs oldCs) documentPrefix ncd1) as Htr.
  rewrite Hrs in Htr. rewrite Hdoc.
  unfold lineage in Htr. cbn in Htr.
  injection Htr as H1 H2 H3 H4 H5 H6 H7.
  cbn. by rewrite H1, H2, H3, H5, H7.
Qed.

(** ** Collaborators *)

Lemma filter_set_elem (g : DID → string) (fs : list DID) (init : gset string) x :
  x ∈ foldl (λ (filter : gset string) c, {[ g c ]} ∪ filter) init fs
  ↔ x ∈ init ∨ x ∈ g <$> fs.
Proof.
  revert init. induction fs as [|c fs IH]; intros init; cbn.
  - rewrite elem_of_nil. tauto.
  - rewrite IH, elem_of_union, elem_of_singleton, elem_of_cons. tauto.
Qed.

Lemma filter_loop (P : DID → Prop) `{!∀ x, Decision (P x)} (cs acc : list DID) :
  foldl (λ filteredIDs id,
           if bool_decide (P id) then filteredIDs else filteredIDs ++ [id]) acc cs
  = acc ++ filter (λ id, ¬ P id) cs.
Proof.
  revert acc. induction cs as [|c cs IH]; intros acc; cbn [foldl].
  - by rewrite filter_nil, app_nil_r.
  - rewrite IH, filter_cons. case_bool_decide; case_decide; try done.
    by rewrite <- app_assoc.
Qed.

(** [filterCollaborators] keeps, in order, the identities whose lower-case
    string is not the lower-case string of a filter identity. *)
Lemma filterCollaborators_spec (cs filterIDs : list DID) :
  filterCollaborators cs filterIDs
  = filter (λ id, ToLower (DIDString id)
                    ∉ (λ c, ToLower (DIDString c)) <$> filterIDs) cs.
Proof.
  unfold filterCollaborators. rewrite filter_loop. cbn.
  apply list_filter_iff. intros id.
  rewrite (filter_set_elem (λ c, ToLower (DIDString c))).
  rewrite elem_of_empty. tauto.
Qed.

Lemma filterCollaborators_nil (cs : list DID) : filterCollaborators cs [] = cs.
Proof.
  rewrite filterCollaborators_spec. cbn.
  induction cs as [|c cs IH]; [done|].
  rewrite filter_cons. case_decide as Hc; [by rewrite IH|].
  exfalso. set_solver.
Qed.

Lemma findRoleInRule_collect roles i j rks (ids : list DID) :
  findRoleInRule roles
    (λ _ _ role (ids : list DID),
       if (length (Collaborators role) <? 1)%nat then (false, ids)
       else (false, ids ++ map NewDIDFromBytes (Collaborators role)))
    i j rks ids
  = (false,
     ids ++ flat_map (λ role, map NewDIDFromBytes (Collaborators role))
              (rolesOfKeys roles rks)).
Proof.
  revert j ids. induction rks as [|rk rks IH]; intros j ids; cbn.
  - by rewrite app_nil_r.
  - destruct (getRole rk roles) as [role|]; cbn; [|apply IH].
    destruct (Collaborators role) as [|c l] eqn:Hc; cbn.
    + apply IH.
    + rewrite IH. by rewrite <- app_assoc.
Qed.

Lemma findRoleInRules_collect roles actions i rules (ids : list DID) :
  findRoleInRules roles
    (λ _ _ role (ids : list DID),
       if (length (Collaborators role) <? 1)%nat then (false, ids)
       else (false, ids ++ map NewDIDFromBytes (Collaborators role)))
    actions i rules ids
  = (false,
     ids ++ flat_map (λ role, map NewDIDFromBytes (Collaborators role))
              (rolesOfRules roles actions rules)).
Proof.
  revert i ids. induction rules as [|rule rules IH]; intros i ids; cbn.
  - by rewrite app_nil_r.
  - case_bool_decide; [|apply IH].
    rewrite findRoleInRule_collect, IH.
    by rewrite flat_map_app, app_assoc.
Qed.

(** [GetCollaborators] without filter lists the collaborators of every
    role that a read rule with action READ_SIGN or READ names. *)
Lemma GetCollaborators_reachable cd :
  GetCollaborators cd [] = Ok (collaboratorsOf cd).
Proof.
  unfold GetCollaborators, getCollaborators, findRole, collaboratorsOf, reachableRoles.
  rewrite findRoleInRules_collect. by rewrite filterCollaborators_nil.
Qed.

(** C8.  The version that [PrepareNewVersion] returns for a predecessor
    with a document root of 32 bytes has the NFTs and access tokens of the
    predecessor, and its roles, read rules and transition rules start
    with those of the predecessor.  The supplied collaborators whose
    lower-case string is not that of a collaborator of the predecessor
    are added, in the order supplied, as the collaborators of one role
    with a random key, appended together with one read rule READ_SIGN and
    one transition rule that name it; when there is no such collaborator
    nothing is appended. *)
Theorem PrepareNewVersion_collaborators
    cd collaborators initSalts documentPrefix r ncd r' cs :
  length (DocumentRoot (Document cd)) = 32 →
  NewDIDsFromStrings collaborators = Ok cs →
  PrepareNewVersion cd collaborators initSalts documentPrefix r = (Ok ncd, r') →
  let added :=
    filter (λ c, ToLower (DIDString c)
                   ∉ (λ o, ToLower (DIDString o)) <$> collaboratorsOf cd) cs in
  Nfts (Document ncd) = Nfts (Document cd) ∧
  AccessTokens (Document ncd) = AccessTokens (Document cd) ∧
  if bool_decide (added = []) then
    Roles (Document ncd) = Roles (Document cd) ∧
    ReadRules (Document ncd) = ReadRules (Document cd) ∧
    TransitionRules (Document ncd) = TransitionRules (Document cd)
  else
    ∃ key r0,
      RandomSlice idSize r0 = (key, r') ∧
      Roles (Document ncd)
      = Roles (Document cd)
          ++ [ {| RoleKey := key; Collaborators := map DIDBytes added;
                  RoleNfts := [] |} ] ∧
      ReadRules (Document ncd)
      = ReadRules (Document cd)
          ++ [ {| ReadRoles := [key]; ReadAction := ACTION_READ_SIGN |} ] ∧
      TransitionRules (Document ncd)
      = TransitionRules (Document cd)
          ++ [ {| RuleRoles := [key]; MatchType := FIELD_MATCH_TYPE_PREFIX;
                  Field := documentPrefix;
                  RuleAction := TRANSITION_ACTION_EDIT |} ].
Proof.
  intros _ Hcs Hprep added.
  apply PrepareNewVersion_Ok in Hprep
    as (_ & cs' & oldCs & preimage & version & r1 & ncd1 & salts
          & Hcs' & Hold & _ & Hrs & Hdoc).
  rewrite Hcs in Hcs'. injection Hcs' as <-.
  rewrite GetCollaborators_reachable in Hold. injection Hold as <-.
  rewrite filterCollaborators_spec in Hrs, Hdoc. fold added in Hrs, Hdoc.
  rewrite Hdoc. clear Hdoc.
  apply addCollaboratorsToReadSignRules_fields in Hrs
    as [(Hnil & -> & ->)|(Hne & key & Hkey & ->)].
  - rewrite Hnil. rewrite bool_decide_eq_true_2 by done. by cbn.
  - rewrite bool_decide_eq_false_2 by done.
    unfold addCollaboratorsToTransitionRules.
    destruct added as [|c added']; [done|]. cbn [length Nat.eqb].
    unfold addNewReadRule. cbn [Document Roles set_ReadRules set_Roles].
    rewrite last_snoc. cbn. split; [done|]. split; [done|].
    by exists key, r1.
Qed.

(** ** Trees and roots *)

Lemma NewDefaultTreeWithPrefix_options salts prefix :
  prefix ≠ "" →
  NewDefaultTreeWithPrefix salts prefix (compactProperties prefix)
  = proofs.NewDocumentTree (treeOptions prefix).
Proof.
  intros Hne. unfold NewDefaultTreeWithPrefix, treeOptions.
  by rewrite bool_decide_eq_true_2.
Qed.

Lemma Generate_fresh o ls :
  proofs.Generate {| opts := o; leaves := ls; filled := false; rootHash := [] |}
  = Ok (treeOver o ls).
Proof. done. Qed.

(** [getSignatureDataTree] in closed form: the signatures tree of the
    signature data, and the salts cached when they were not. *)
Lemma getSignatureDataTree_result cd :
  getSignatureDataTree cd =
    match signaturesTreeOf (SignatureDataOf (Document cd)) with
    | Ok st => (Ok st, withSignatureSalts cd)
    | Err e => (Err e, cd)
    end.
Proof.
  unfold getSignatureDataTree, setSignatureDataSalts, GenerateNewSalts,
    signaturesTreeOf, withSignatureSalts, mbind, mget, mlift, mret.
  unfold proofs.AddLeavesFromDocument, NewDefaultTreeWithPrefix. cbn.
  rewrite !bool_decide_eq_true_2 by done.
  fold (treeOptions SignaturesTreePrefix).
  destruct (SignatureDataSalts (Document cd)); cbn.
  - by destruct (FlattenMessage _ _).
  - destruct (FlattenMessage _ _) eqn:Hf; cbn; [|done]. by rewrite Hf.
Qed.

Lemma getSignatureDataTree_fst cd :
  fst (getSignatureDataTree cd) = signaturesTreeOf (SignatureDataOf (Document cd)).
Proof.
  rewrite getSignatureDataTree_result.
  by destruct (signaturesTreeOf _).
Qed.

Lemma withSignatureSalts_data cd :
  SignatureDataOf (Document (withSignatureSalts cd)) = SignatureDataOf (Document cd).
Proof. unfold withSignatureSalts. by destruct (SignatureDataSalts (Document cd)). Qed.

Lemma withSignatureSalts_again cd :
  withSignatureSalts (withSignatureSalts cd) = withSignatureSalts cd.
Proof.
  unfold withSignatureSalts.
  destruct (SignatureDataSalts (Document cd)) eqn:Hs; [by rewrite Hs|]. cbn.
  by destruct (ConvertToProtoSalts []).
Qed.

(** Once it has succeeded, a further call returns the same tree and leaves
    the document as it is. *)
Lemma getSignatureDataTree_again cd st cd1 :
  getSignatureDataTree cd = (Ok st, cd1) →
  getSignatureDataTree cd1 = (Ok st, cd1).
Proof.
  rewrite getSignatureDataTree_result.
  destruct (signaturesTreeOf _) as [st'|] eqn:Hst; [|done].
  intros [= <- <-]. rewrite getSignatureDataTree_result.
  by rewrite withSignatureSalts_data, Hst, withSignatureSalts_again.
Qed.

Lemma merkleRoot_two o a b :
  proofs.merkleRoot o [a; b] = proofs.hashPair o a b.
Proof. done. Qed.

(** What [DocumentRootTree] returns. *)
Lemma DocumentRootTree_result cd :
  DocumentRootTree cd =
    if (length (SigningRoot (Document cd)) =? idSize)%nat then
      match getSignatureDataTree cd with
      | (Ok st, cd1) =>
          (Ok (treeOver (treeOptions DRTreePrefix)
                 [signingRootLeaf cd; signaturesRootLeaf st]), cd1)
      | (Err e, cd1) => (Err e, cd1)
      end
    else (Err (Error "signing root is invalid"), cd).
Proof.
  unfold DocumentRootTree, mbind, mget, mlift, mret, mfail. cbn [fst snd].
  destruct (length (SigningRoot (Document cd)) =? idSize)%nat; cbn [negb]; [|done].
  rewrite NewDefaultTreeWithPrefix_options by done. cbn.
  by destruct (getSignatureDataTree cd) as [[st|e] cd1].
Qed.

(** C5.  With a signing root of 32 bytes and a signatures tree [st] over
    the signature data, [CalculateDocumentRoot] returns, and stores in
    the document, the root of the generated tree with prefix dr_tree
    whose two leaves are the hashed leaf dr_tree.signing_root holding the
    signing root and the hashed leaf dr_tree.signatures_root holding the
    root of [st]: the hash of the two, sorted.  With a signing root of
    another length it returns the error "signing root is invalid" and
    leaves the document as it is. *)
Theorem CalculateDocumentRoot_two_leaves cd :
  (length (SigningRoot (Document cd)) = 32 →
   ∀ st, signaturesTreeOf (SignatureDataOf (Document cd)) = Ok st →
     ∃ t cd1,
       DocumentRootTree cd = (Ok t, cd1) ∧
       opts t = treeOptions DRTreePrefix ∧
       ParentPrefix (opts t)
       = proofs.NewProperty "dr_tree" [x04; x00; x00; x00] ∧
       map (λ n, (ReadableName (LeafProperty n), LeafHash n, Hashed n)) (leaves t)
       = [ ("dr_tree.signing_root", SigningRoot (Document cd), true);
           ("dr_tree.signatures_root", proofs.RootHash st, true) ] ∧
       proofs.RootHash t
       = proofs.hashPair (opts t) (SigningRoot (Document cd)) (proofs.RootHash st) ∧
       CalculateDocumentRoot cd
       = (Ok (proofs.RootHash t),
          {| Document := set_DocumentRoot (proofs.RootHash t) (Document cd1) |})) ∧
  (length (SigningRoot (Document cd)) ≠ 32 →
   CalculateDocumentRoot cd = (Err (Error "signing root is invalid"), cd)).
Proof.
  split.
  - intros Hlen st Hst.
    pose proof (getSignatureDataTree_fst cd) as Hfst. rewrite Hst in Hfst.
    destruct (getSignatureDataTree cd) as [rt cd1] eqn:Hsig. cbn in Hfst. subst rt.
    assert (DocumentRootTree cd
            = (Ok (treeOver (treeOptions DRTreePrefix)
                     [signingRootLeaf cd; signaturesRootLeaf st]), cd1)) as Hdr.
    { rewrite DocumentRootTree_result, Hsig. unfold idSize.
      by rewrite (proj2 (Nat.eqb_eq _ _) Hlen). }
    eexists _, cd1. split; [exact Hdr|].
    repeat split.
    unfold CalculateDocumentRoot, mbind, mmodify, mget, mret. by rewrite Hdr.
  - intros Hlen.
    unfold CalculateDocumentRoot, mbind. rewrite DocumentRootTree_result.
    destruct (length (SigningRoot (Document cd)) =? idSize)%nat eqn:E; [|done].
    by apply Nat.eqb_eq in E.
Qed.

(** [PrepareNewVersion] returns a version when the document root has 32
    bytes, the collaborators are well formed, the hash pair of the next
    version is generated and, with [initSalts], the core document can be
    flattened. *)
Lemma PrepareNewVersion_returns
    cd collaborators initSalts documentPrefix r cs preimage version r1 :
  length (DocumentRoot (Document cd)) = idSize →
  NewDIDsFromStrings collaborators = Ok cs →
  GenerateHashPair idSize r = (preimage, version, None, r1) →
  (initSalts = true →
   ∀ d, isErr (FlattenMessage (treeOptions CDTreePrefix) (MsgCoreDocument d)) = false) →
  ∃ ncd r', PrepareNewVersion cd collaborators initSalts documentPrefix r = (Ok ncd, r').
Proof.
  intros Hlen Hcs Hgen Hflat. unfold PrepareNewVersion.
  rewrite (proj2 (Nat.eqb_eq _ _) Hlen), Hcs. cbn [negb].
  destruct (GetCollaborators cd []) as [oldCs|e] eqn:Hold;
    [|by rewrite GetCollaborators_reachable in Hold].
  unfold populateVersions. cbn [fst snd]. rewrite Hgen.
  destruct (addCollaboratorsToReadSignRules _ _ r1) as [ncd1 r2].
  destruct initSalts; cbn [negb]; [|eauto].
  unfold setSalts.
  destruct (CoredocumentSalts _); [eauto|].
  unfold GenerateNewSalts, proofs.AddLeavesFromDocument.
  rewrite NewDefaultTreeWithPrefix_options by done. cbn [opts proofs.NewDocumentTree].
  specialize (Hflat eq_refl
    (Document (addCollaboratorsToTransitionRules (filterCollaborators cs oldCs)
                 documentPrefix ncd1))).
  destruct (FlattenMessage _ _); [cbn; eauto|done].
Qed.

(** ** Signatures *)

(** C1, as the code has it.  [AppendSignatures] with a signature that the
    document already holds appends a second copy: the list of signatures
    is the old list followed by the signature, one longer than before,
    and the signatures root that [GetSignaturesRootHash] then returns is
    the root of the signatures tree over this longer list. *)
Theorem AppendSignatures_present cd (s : Signature) :
  s ∈ signaturesOf cd →
  signaturesOf (AppendSignatures [s] cd) = signaturesOf cd ++ [s] ∧
  length (signaturesOf (AppendSignatures [s] cd)) = S (length (signaturesOf cd)) ∧
  fst (GetSignaturesRootHash (AppendSignatures [s] cd))
  = signaturesRootOf (signaturesOf cd ++ [s]).
Proof.
  intros _.
  assert (SignatureDataOf (Document (AppendSignatures [s] cd))
          = Some {| Signatures := signaturesOf cd ++ [s] |}) as Hsd.
  { unfold AppendSignatures, signaturesOf. cbn.
    by destruct (SignatureDataOf (Document cd)). }
  split; [|split].
  - unfold signaturesOf at 1. by rewrite Hsd.
  - unfold signaturesOf at 1. rewrite Hsd. cbn. rewrite length_app. cbn. lia.
  - unfold GetSignaturesRootHash, mbind, mret, signaturesRootOf.
    rewrite getSignatureDataTree_result, Hsd.
    by destruct (signaturesTreeOf _).
Qed.

(** ** Proofs *)

Lemma generateProofsFrom_Ok prfs fields (treeProofs : gmap string TreeProof) out :
  generateProofsFrom prfs fields treeProofs = Ok out →
  ∃ new, out = prfs ++ new ∧
    Forall2 (λ f p, ∃ t, treeProofs !! fieldPrefix f = Some t ∧
                         composed (tree t) (treeHashes t) f p) fields new.
Proof.
  revert prfs. induction fields as [|f fields IH]; intros prfs; cbn.
  - intros [= <-]. exists []. by rewrite app_nil_r.
  - destruct (treeProofs !! fieldPrefix f) as [t|] eqn:Ht; [|done].
    destruct (proofs.CreateProof f (tree t)) as [base|] eqn:Hb; [|done].
    intros (new & -> & Hall)%IH.
    eexists (_ :: new). rewrite <- app_assoc. split; [done|].
    constructor; [|done]. exists t. split; [done|]. by exists base.
Qed.

Lemma generateProofsFrom_unknown prfs fields (treeProofs : gmap string TreeProof) f :
  f ∈ fields → treeProofs !! fieldPrefix f = None →
  ∃ e, generateProofsFrom prfs fields treeProofs = Err e.
Proof.
  revert prfs. induction fields as [|f' fields IH]; intros prfs Hin Hnone.
  - by apply elem_of_nil in Hin.
  - cbn. destruct (treeProofs !! fieldPrefix f') as [t|] eqn:Ht; [|eauto].
    destruct (proofs.CreateProof f' (tree t)); [|eauto].
    apply elem_of_cons in Hin as [->|Hin]; [congruence|].
    by apply IH.
Qed.

Lemma withSignatureSalts_signing cd :
  SigningRoot (Document (withSignatureSalts cd)) = SigningRoot (Document cd).
Proof. unfold withSignatureSalts. by destruct (SignatureDataSalts (Document cd)). Qed.

(** The hash that [GetSigningRootHash] returns is the signing root. *)
Lemma GetSigningRootHash_result cd st :
  length (SigningRoot (Document cd)) = idSize →
  signaturesTreeOf (SignatureDataOf (Document cd)) = Ok st →
  GetSigningRootHash cd = (Ok (SigningRoot (Document cd)), withSignatureSalts cd).
Proof.
  intros Hlen Hst. unfold GetSigningRootHash, mbind, mlift, mret.
  rewrite DocumentRootTree_result, getSignatureDataTree_result, Hst.
  by rewrite (proj2 (Nat.eqb_eq _ _) Hlen).
Qed.

(** [CreateProofs] in closed form. *)
Lemma CreateProofs_result docType dataTree fields cd :
  CreateProofs docType dataTree fields cd =
    if (length (SigningRoot (Document cd)) =? idSize)%nat then
      match signaturesTreeOf (SignatureDataOf (Document cd)) with
      | Err e => (Err e, cd)
      | Ok sigTree =>
          match documentTree docType (withSignatureSalts cd) with
          | Err e =>
              (Err (wrapErr "failed to generate core Document tree: " e),
               withSignatureSalts cd)
          | Ok cdTree =>
              match getDataTreePrefix dataTree with
              | Err e => (Err e, withSignatureSalts cd)
              | Ok dataPrefix =>
                  (generateProofs fields
                     (supportedTrees cd dataTree sigTree cdTree dataPrefix),
                   withSignatureSalts cd)
              end
          end
      end
    else (Err (Error "signing root is invalid"), cd).
Proof.
  unfold CreateProofs, mbind, mwrap, mlift, mget.
  rewrite DocumentRootTree_result, getSignatureDataTree_result.
  destruct (length (SigningRoot (Document cd)) =? idSize)%nat eqn:Hlen; [|done].
  apply Nat.eqb_eq in Hlen.
  destruct (signaturesTreeOf (SignatureDataOf (Document cd))) as [st|] eqn:Hst; [|done].
  rewrite getSignatureDataTree_result, withSignatureSalts_data, Hst.
  rewrite withSignatureSalts_again.
  destruct (documentTree docType (withSignatureSalts cd)) as [cdTree|] eqn:Hcd; [|done].
  rewrite (GetSigningRootHash_result _ st);
    rewrite ?withSignatureSalts_signing, ?withSignatureSalts_data; try done.
  rewrite withSignatureSalts_again.
  by destruct (getDataTreePrefix dataTree) as [dataPrefix|] eqn:Hdp.
Qed.

(** What a successful [CreateProofs] went through. *)
Lemma CreateProofs_Ok docType dataTree fields cd prfs cd' :
  CreateProofs docType dataTree fields cd = (Ok prfs, cd') →
  ∃ sigTree cdTree dataPrefix,
    cd' = withSignatureSalts cd ∧
    (length (SigningRoot (Document cd)) =? idSize)%nat = true ∧
    signaturesTreeOf (SignatureDataOf (Document cd)) = Ok sigTree ∧
    documentTree docType cd' = Ok cdTree ∧
    getDataTreePrefix dataTree = Ok dataPrefix ∧
    generateProofs fields (supportedTrees cd dataTree sigTree cdTree dataPrefix)
    = Ok prfs.
Proof.
  rewrite CreateProofs_result.
  destruct (length (SigningRoot (Document cd)) =? idSize)%nat; [|done].
  destruct (signaturesTreeOf _) as [st|]; [|done].
  destruct (documentTree _ _) as [cdTree|] eqn:Hcd; [|done].
  destruct (getDataTreePrefix dataTree) as [dataPrefix|]; [|done].
  intros [= Hgen <-]. by exists st, cdTree, dataPrefix.
Qed.

Lemma generateProofsFrom_app prfs pre rest (treeProofs : gmap string TreeProof) :
  generateProofsFrom prfs (pre ++ rest) treeProofs =
    match generateProofsFrom prfs pre treeProofs with
    | Ok out => generateProofsFrom out rest treeProofs
    | Err e => Err e
    end.
Proof.
  revert prfs. induction pre as [|f pre IH]; intros prfs; cbn; [done|].
  destruct (treeProofs !! fieldPrefix f) as [t|]; [|done].
  destruct (proofs.CreateProof f (tree t)); [|done].
  apply IH.
Qed.

(** A prefix that is none of the four has no tree. *)
Lemma supportedTrees_unknown cd dataTree sigTree cdTree dataPrefix p :
  p ∉ [DRTreePrefix; CDTreePrefix; SignaturesTreePrefix] → p ≠ dataPrefix →
  supportedTrees cd dataTree sigTree cdTree dataPrefix !! p = None.
Proof.
  rewrite !not_elem_of_cons. intros (Hdr & Hcdp & Hsg & _) Hdp.
  unfold supportedTrees.
  rewrite !lookup_insert_ne; [apply lookup_empty|congruence..].
Qed.

(** C6.  When [CreateProofs] returns proofs, there is one for each
    requested field, in order.  With [sigTree] the signatures tree,
    [cdTree] the core document tree and [dataPrefix] the prefix of the
    data tree: the sorted hashes of the proof of a field under the data
    prefix (a prefix other than cd_tree and signatures_tree) are those of
    its proof in the data tree followed by the root of [cdTree] and the
    root of [sigTree]; for a field under cd_tree they are those of its
    proof in [cdTree] followed by the data root and the root of
    [sigTree]; for a field under signatures_tree they are those of its
    proof in [sigTree] followed by the signing root.  When a requested
    field has a prefix that is none of dr_tree, cd_tree, signatures_tree
    and the data prefix, [CreateProofs] returns an error; it is the error
    "failed to find prefix tree in supported list" when the fields
    requested before that field have their proofs. *)
Theorem CreateProofs_composition docType dataTree fields cd :
  (∀ prfs cd',
     CreateProofs docType dataTree fields cd = (Ok prfs, cd') →
     ∃ sigTree cdTree dataPrefix,
       signaturesTreeOf (SignatureDataOf (Document cd)) = Ok sigTree ∧
       documentTree docType cd' = Ok cdTree ∧
       getDataTreePrefix dataTree = Ok dataPrefix ∧
       Forall2
         (λ f p,
            (fieldPrefix f = dataPrefix →
             dataPrefix ≠ CDTreePrefix → dataPrefix ≠ SignaturesTreePrefix →
             composed dataTree
               [proofs.RootHash cdTree; proofs.RootHash sigTree] f p) ∧
            (fieldPrefix f = CDTreePrefix →
             composed cdTree
               [proofs.RootHash dataTree; proofs.RootHash sigTree] f p) ∧
            (fieldPrefix f = SignaturesTreePrefix →
             composed sigTree [SigningRoot (Document cd)] f p))
         fields prfs) ∧
  (∀ f,
     f ∈ fields →
     fieldPrefix f ∉ [DRTreePrefix; CDTreePrefix; SignaturesTreePrefix] →
     getDataTreePrefix dataTree ≠ Ok (fieldPrefix f) →
     ∃ e, fst (CreateProofs docType dataTree fields cd) = Err e) ∧
  (∀ before f after prfs cd',
     fields = before ++ f :: after →
     CreateProofs docType dataTree before cd = (Ok prfs, cd') →
     fieldPrefix f ∉ [DRTreePrefix; CDTreePrefix; SignaturesTreePrefix] →
     getDataTreePrefix dataTree ≠ Ok (fieldPrefix f) →
     fst (CreateProofs docType dataTree fields cd) = Err ErrUnknownTreePrefix).
Proof.
  split; [|split].
  - intros prfs cd' Hok.
    apply CreateProofs_Ok in Hok
      as (sigTree & cdTree & dataPrefix & -> & Hlen & Hsig & Hcd & Hdp & Hgen).
    exists sigTree, cdTree, dataPrefix. repeat split; try done.
    apply generateProofsFrom_Ok in Hgen as (new & -> & Hall). cbn.
    eapply Forall2_impl; [exact Hall|].
    intros f p (t & Ht & Hcomp). unfold supportedTrees in Ht. repeat split.
    + intros Hf Hne1 Hne2. rewrite Hf in Ht.
      rewrite lookup_insert_ne, lookup_insert_ne, lookup_insert_eq in Ht by done.
      by injection Ht as <-.
    + intros Hf. rewrite Hf, lookup_insert_eq in Ht. by injection Ht as <-.
    + intros Hf. rewrite Hf in Ht.
      rewrite lookup_insert_ne, lookup_insert_eq in Ht by done.
      by injection Ht as <-.
  - intros f Hin Hknown Hdata.
    destruct (CreateProofs docType dataTree fields cd) as [[prfs|e] cd'] eqn:Hcp;
      [|by exists e].
    apply CreateProofs_Ok in Hcp
      as (sigTree & cdTree & dataPrefix & -> & Hlen & Hsig & Hcd & Hdp & Hgen).
    unfold generateProofs in Hgen.
    edestruct (generateProofsFrom_unknown [] fields) as [e He]; [exact Hin| |].
    2:{ rewrite He in Hgen. done. }
    apply supportedTrees_unknown; [done|]. congruence.
  - intros before f after prfs cd' -> Hbefore Hknown Hdata.
    apply CreateProofs_Ok in Hbefore
      as (sigTree & cdTree & dataPrefix & -> & Hlen & Hsig & Hcd & Hdp & Hgen).
    rewrite CreateProofs_result, Hlen, Hsig, Hcd, Hdp. cbn [fst].
    unfold generateProofs in *. rewrite generateProofsFrom_app, Hgen.
    cbn [generateProofsFrom].
    rewrite supportedTrees_unknown; [done|done|congruence].
Qed.

(** ** Read access *)

Lemma findRoleInRule_exists roles (p : Role → bool) i j rks :
  findRoleInRule roles (λ _ _ role (s : unit), (p role, s)) i j rks tt
  = (existsb p (rolesOfKeys roles rks), tt).
Proof.
  revert j. induction rks as [|rk rks IH]; intros j; cbn; [done|].
  destruct (getRole rk roles) as [role|]; cbn; [|apply IH].
  destruct (p role); cbn; [done|apply IH].
Qed.

Lemma findRoleInRules_exists roles (p : Role → bool) actions i rules :
  findRoleInRules roles (λ _ _ role (s : unit), (p role, s)) actions i rules tt
  = (existsb p (rolesOfRules roles actions rules), tt).
Proof.
  revert i. induction rules as [|rule rules IH]; intros i; cbn; [done|].
  case_bool_decide; [|apply IH].
  rewrite findRoleInRule_exists, existsb_app.
  destruct (existsb p (rolesOfKeys roles (ReadRoles rule))); cbn; [done|apply IH].
Qed.

Lemma findRole_exists d (p : Role → bool) actions :
  fst (findRole d (λ _ _ role (s : unit), (p role, s)) actions tt)
  = existsb p (reachableRoles d actions).
Proof. unfold findRole. by rewrite findRoleInRules_exists. Qed.

(** An account can read when it is a collaborator of a role that a read
    rule with action READ or READ_SIGN names. *)
Lemma AccountCanRead_spec cd account :
  AccountCanRead cd account = true ↔
  ∃ role, role ∈ reachableRoles (Document cd) [ACTION_READ; ACTION_READ_SIGN] ∧
          DIDBytes account ∈ Collaborators role.
Proof.
  unfold AccountCanRead. rewrite findRole_exists, existsb_exists.
  split; intros (role & Hrole & Hin); exists role.
  - apply list_elem_of_In in Hrole. split; [done|].
    unfold isDIDInRole in Hin. apply existsb_exists in Hin as (c & Hc & Heq).
    apply bool_decide_eq_true in Heq as ->. by apply list_elem_of_In.
  - apply list_elem_of_In in Hrole. split; [done|].
    unfold isDIDInRole. apply existsb_exists. exists (DIDBytes account).
    split; [by apply list_elem_of_In|]. by apply bool_decide_eq_true.
Qed.

Lemma boundWithReadAccess_found cd registry tokenID :
  boundWithReadAccess cd registry tokenID →
  fst (findRole (Document cd)
         (λ _ _ role (s : unit), (isNFTInRole role registry tokenID, s))
         [ACTION_READ] tt) = true.
Proof.
  intros (Hlen & role & Hrole & Hin).
  rewrite findRole_exists. apply existsb_exists. exists role.
  split; [by apply list_elem_of_In|].
  unfold isNFTInRole, ConstructNFT.
  rewrite (proj2 (Nat.eqb_eq _ _) Hlen). cbn.
  apply existsb_exists. exists (registry ++ tokenID).
  split; [by apply list_elem_of_In|]. by apply bool_decide_eq_true.
Qed.

(** C3, as the model of the evaluator has it.  With the NFT bound with
    read access in the document, [NFTOwnerCanRead] grants read to a
    requester exactly when the requester can read as a collaborator or
    the token registry names the requester's address as the owner of the
    token. *)
Theorem NFTOwnerCanRead_iff cd (tr : TokenRegistry) registry tokenID account :
  boundWithReadAccess cd registry tokenID →
  NFTOwnerCanRead cd tr registry tokenID account = None
  ↔ AccountCanRead cd account = true ∨ reportsOwner tr registry tokenID account.
Proof.
  intros Hbound. unfold NFTOwnerCanRead, reportsOwner.
  destruct (AccountCanRead cd account); [by intuition|].
  rewrite boundWithReadAccess_found by done. cbn.
  destruct (OwnerOf tr registry tokenID) as [owner|e].
  - unfold bytes_eqb. case_bool_decide as Ho; cbn.
    + subst owner. by intuition.
    + split; [done|]. intros [?|[= ->]]; done.
  - split; [done|]. by intros [?|?].
Qed.

(** ** NFTs *)

Lemma addCollaboratorsToTransitionRules_nil prefix cd :
  addCollaboratorsToTransitionRules [] prefix cd = cd.
Proof. done. Qed.

(** C2, as the model of [AddNFT] has it.  For a document with a document
    root of 32 bytes, a registry address of 20 bytes and a token id of 32
    bytes, the version that [AddNFT] returns has the NFT, with the
    registry id padded on the right to 32 bytes, appended to [nfts] when
    the document holds no NFT of the registry; when it holds one, that
    entry gets the new token id and [nfts] keeps its length.  With read
    access granted, a new role that holds the NFT and a new read rule
    with action READ naming it are appended; without, roles and read
    rules stay as they are. *)
Theorem AddNFT_result grantReadAccess registry tokenID cd r ncd r' :
  NewDIDsFromStrings [] = Ok [] →
  length (DocumentRoot (Document cd)) = 32 →
  length registry = 20 → length tokenID = 32 →
  AddNFT grantReadAccess registry tokenID cd r = (Ok ncd, r') →
  match getStoredNFT (Nfts (Document cd)) registry with
  | None =>
      Nfts (Document ncd)
      = Nfts (Document cd)
          ++ [ {| RegistryId := registry ++ zeroBytes 12; TokenId := tokenID |} ] ∧
      length (registry ++ zeroBytes 12) = 32
  | Some (i, nft) =>
      Nfts (Document ncd)
      = <[i := {| RegistryId := RegistryId nft; TokenId := tokenID |}]>
          (Nfts (Document cd)) ∧
      length (Nfts (Document ncd)) = length (Nfts (Document cd))
  end ∧
  if grantReadAccess then
    ∃ key,
      Roles (Document ncd)
      = Roles (Document cd)
          ++ [ {| RoleKey := key; Collaborators := [];
                  RoleNfts := [registry ++ tokenID] |} ] ∧
      ReadRules (Document ncd)
      = ReadRules (Document cd)
          ++ [ {| ReadRoles := [key]; ReadAction := ACTION_READ |} ]
  else
    Roles (Document ncd) = Roles (Document cd) ∧
    ReadRules (Document ncd) = ReadRules (Document cd).
Proof.
  intros Hnil _ Hreg Htok. unfold AddNFT.
  destruct (PrepareNewVersion cd [] false [] r) as [[ncd0|e] r1] eqn:Hprep; [|done].
  apply PrepareNewVersion_Ok in Hprep
    as (_ & cs & oldCs & preimage & version & r0 & ncd1 & salts
          & Hcs & _ & _ & Hrs & Hdoc).
  rewrite Hnil in Hcs. injection Hcs as <-.
  rewrite filterCollaborators_spec, filter_nil in Hrs, Hdoc.
  rewrite addCollaboratorsToTransitionRules_nil in Hdoc.
  apply addCollaboratorsToReadSignRules_fields in Hrs
    as [(_ & -> & ->)|(? & _)]; [|done].
  cbn in Hdoc. rewrite Hdoc. cbn [Nfts set_CoredocumentSalts].
  set (nfts := match getStoredNFT (Nfts (Document cd)) registry with
               | Some _ => _ | None => _ end).
  intros Hadd.
  assert (Nfts (Document ncd) = nfts ∧
          if grantReadAccess then
            ∃ key,
              Roles (Document ncd)
              = Roles (Document cd)
                  ++ [ {| RoleKey := key; Collaborators := [];
                          RoleNfts := [registry ++ tokenID] |} ] ∧
              ReadRules (Document ncd)
              = ReadRules (Document cd)
                  ++ [ {| ReadRoles := [key]; ReadAction := ACTION_READ |} ]
          else
            Roles (Document ncd) = Roles (Document cd) ∧
            ReadRules (Document ncd) = ReadRules (Document cd)) as [Hn Hr].
  { destruct grantReadAccess.
    - unfold addNFTToReadRules, ConstructNFT in Hadd.
      rewrite length_app, Hreg, Htok in Hadd. cbn [Nat.add Nat.eqb negb nftByteCount] in Hadd.
      unfold newRole in Hadd.
      destruct (RandomSlice idSize r0) as [key r2].
      destruct (setSalts _) as [[u|e] cd2] eqn:Hsalts; [|done].
      injection Hadd as <- <-.
      apply setSalts_fields in Hsalts as [salts' ->]. cbn.
      split; [done|]. by exists key.
    - destruct (setSalts _) as [[u|e] cd2] eqn:Hsalts; [|done].
      injection Hadd as <- <-.
      apply setSalts_fields in Hsalts as [salts' ->]. by cbn. }
  split; [|done]. rewrite Hn. subst nfts.
  destruct (getStoredNFT (Nfts (Document cd)) registry) as [[i nft]|].
  - split; [done|]. by rewrite length_insert.
  - split; [done|]. rewrite length_app, Hreg. done.
Qed.

(** ** The current version *)

Lemma getVersion_stored (account documentID version : bytes)
    (store : gmap (bytes * bytes) CoreDocument) (m : CoreDocument) :
  getVersion account documentID version store = Ok m →
  store !! (account, version) = Some m.
Proof.
  unfold getVersion. destruct (store !! (account, version)); [|done].
  by destruct (bytes_eqb _ _); intros [= ->].
Qed.

Lemma follows_stored (account documentID : bytes)
    (store : gmap (bytes * bytes) CoreDocument) m vs last :
  follows account documentID store m vs last →
  ∀ v, v ∈ vs → is_Some (store !! (account, v)).
Proof.
  induction 1 as [|m m' vs last Hget _ IH]; intros v Hv.
  - by apply elem_of_nil in Hv.
  - apply elem_of_cons in Hv as [->|Hv]; [|by apply IH].
    apply getVersion_stored in Hget. by rewrite Hget.
Qed.

Lemma follows_fetched (account documentID : bytes)
    (store : gmap (bytes * bytes) CoreDocument) m vs last :
  follows account documentID store m vs last →
  ∀ v, v ∈ vs → isErr (getVersion account documentID v store) = false.
Proof.
  induction 1 as [|m m' vs last Hget _ IH]; intros v Hv.
  - by apply elem_of_nil in Hv.
  - apply elem_of_cons in Hv as [->|Hv]; [|by apply IH].
    by rewrite Hget.
Qed.

(** No more distinct versions are stored than there are records. *)
Lemma stored_versions_bound (account : bytes)
    (store : gmap (bytes * bytes) CoreDocument) (vs : list bytes) :
  NoDup vs → (∀ v, v ∈ vs → is_Some (store !! (account, v))) →
  (length vs ≤ size store)%nat.
Proof.
  intros Hnd Hst.
  rewrite <- (length_fmap (λ v, (account, v)) vs).
  rewrite <- size_dom, <- (size_list_to_set (C := gset (bytes * bytes))).
  - apply subseteq_size. intros k Hk.
    apply elem_of_list_to_set, list_elem_of_fmap in Hk as (v & -> & Hv).
    apply elem_of_dom. by apply Hst.
  - apply NoDup_fmap_2; [|done]. by intros v1 v2 [= ->].
Qed.

Lemma walkVersions_follows (account documentID : bytes)
    (store : gmap (bytes * bytes) CoreDocument) m vs last :
  follows account documentID store m vs last →
  ∀ steps (seen : gset bytes),
    NoDup vs → (∀ v, v ∈ vs → v ∉ seen) → (length vs ≤ steps)%nat →
    (isErr (getVersion account documentID (NextVersion (Document last)) store) = true →
     walkVersions steps account documentID store seen m = Ok last) ∧
    (isErr (getVersion account documentID (NextVersion (Document last)) store) = false →
     NextVersion (Document last) ∈ seen ∨ NextVersion (Document last) ∈ vs →
     walkVersions steps account documentID store seen m = Err ErrCyclicVersions).
Proof.
  induction 1 as [m|m m' vs last Hget _ IH]; intros steps seen Hnd Hseen Hlen.
  - split.
    + intros Herr. destruct steps; cbn;
        by destruct (getVersion _ _ _ _).
    + intros Hok [Hin|Hin]; [|by apply elem_of_nil in Hin].
      destruct steps; cbn; destruct (getVersion _ _ _ _); try done;
        by rewrite bool_decide_eq_true_2.
  - apply NoDup_cons in Hnd as [Hv Hnd].
    destruct steps as [|steps]; [cbn in Hlen; lia|].
    cbn [walkVersions]. rewrite Hget.
    rewrite bool_decide_eq_false_2 by (apply Hseen, elem_of_cons; by left).
    destruct (IH steps ({[NextVersion (Document m)]} ∪ seen)) as [IH1 IH2].
    + done.
    + intros v Hin. rewrite elem_of_union, elem_of_singleton.
      intros [->|Hs]; [done|]. apply (Hseen v); [|done]. apply elem_of_cons. by right.
    + cbn in Hlen. lia.
    + split; [done|]. intros Hok Hin. apply IH2; [done|].
      rewrite elem_of_union, elem_of_singleton.
      destruct Hin as [Hin|Hin]; [by left; right|].
      apply elem_of_cons in Hin as [->|Hin]; [by left; left|by right].
Qed.

(** C9.  Let the record stored under the document identifier be followed,
    along the stored next versions, by records under pairwise distinct
    versions up to a record [last].  When the next version of [last] is
    not stored, [GetCurrentVersion] returns [last], the last stored
    version.  When the next version of [last] is stored and is the
    document identifier or one of the versions walked through, so that
    the links form a cycle, [GetCurrentVersion] returns the error for
    cyclic versions.  The function is total: the walk takes no more steps
    than there are records. *)
Theorem GetCurrentVersion_walk (account documentID : bytes)
    (store : gmap (bytes * bytes) CoreDocument) first vs last :
  getVersion account documentID documentID store = Ok first →
  follows account documentID store first vs last →
  NoDup (documentID :: vs) →
  (isErr (getVersion account documentID (NextVersion (Document last)) store) = true →
   GetCurrentVersion account documentID store = Ok last) ∧
  (NextVersion (Document last) ∈ documentID :: vs →
   GetCurrentVersion account documentID store = Err ErrCyclicVersions).
Proof.
  intros Hfirst Hfol Hnd. unfold GetCurrentVersion. rewrite Hfirst.
  pose proof (follows_stored _ _ _ _ _ _ Hfol) as Hst.
  assert (length (documentID :: vs) ≤ size store)%nat as Hlen.
  { apply (stored_versions_bound account); [done|].
    intros v [->|Hv]%elem_of_cons; [|by apply Hst].
    apply getVersion_stored in Hfirst. by rewrite Hfirst. }
  apply NoDup_cons in Hnd as [Hid Hnd].
  destruct (walkVersions_follows _ _ _ _ _ _ Hfol (size store) {[documentID]})
    as [H1 H2]; [done| |cbn in Hlen; lia|].
  { intros v Hv ->%elem_of_singleton. done. }
  split; [done|]. intros Hin.
  apply elem_of_cons in Hin as [Hin|Hin].
  - apply H2; [|left; by apply elem_of_singleton].
    rewrite Hin, Hfirst. done.
  - apply H2; [|by right].
    by apply (follows_fetched _ _ _ _ _ _ Hfol).
Qed.

(** ** The receiver handler *)

(** C10.  When the current version is fetched and the access validation
    fails, [GetDocument] returns neither a response nor an error. *)
Theorem GetDocument_access_denied srv docReq requester model e :
  docSrv srv (ReqDocumentIdentifier docReq) = Ok model →
  validateDocumentAccess srv docReq model requester = Some e →
  GetDocument srv docReq requester = (None, None).
Proof.
  intros Hfetch Hdenied. unfold GetDocument.
  rewrite Hfetch. cbn. by rewrite Hdenied.
Qed.

End properties.

(** * The properties on the sample environment *)

Section runs.
Import Sample.

(** Closes a goal over concrete data that has a decision procedure. *)
Ltac decided := apply (bool_decide_unpack _); vm_compute; exact I.

(** Evaluates what a hypothesis branches on, and takes the branch. *)
Ltac branch H :=
  lazymatch type of H with
  | if ?b then _ else _ =>
      let v := eval vm_compute in b in change b with v in H; cbv iota in H
  | match ?d with Some _ => _ | None => _ end =>
      let v := eval vm_compute in d in change d with v in H; cbv iota beta in H
  end.

(** A document without a document root has no next version. *)
Lemma PrepareNewVersion_invalid_root_witness :
  length (DocumentRoot (Document draft)) ≠ 32 ∧
  PrepareNewVersion draft collaborators true poPrefix start
  = (Err (Error "Document root is invalid"), start).
Proof.
  assert (length (DocumentRoot (Document draft)) ≠ 32) as Hlen
    by (vm_compute; discriminate).
  split; [exact Hlen|].
  exact (PrepareNewVersion_invalid_root draft collaborators true poPrefix start Hlen).
Defined.

(** The next version of the anchored document continues its chain. *)
Lemma PrepareNewVersion_version_chain_witness :
  ∃ ncd r',
    PrepareNewVersion anchored collaborators true poPrefix start = (Ok ncd, r') ∧
    PreviousVersion (Document ncd) = v0 ∧
    CurrentVersion (Document ncd) = v1 ∧
    CurrentPreimage (Document ncd) = replicate 32 x61 ∧
    DocumentIdentifier (Document ncd) = v0 ∧
    PreviousRoot (Document ncd) = replicate 32 x44.
Proof.
  eexists _, _. split; [vm_compute; reflexivity|].
  eapply (PrepareNewVersion_version_chain (H := env) anchored collaborators true
            poPrefix start); [reflexivity|vm_compute; reflexivity].
Defined.

(** Of the two collaborators supplied, [didA] in lower case is one
    already and [didC] is added under the third role. *)
Lemma PrepareNewVersion_collaborators_witness :
  ∃ ncd r',
    PrepareNewVersion anchored collaborators true poPrefix start = (Ok ncd, r') ∧
    map Collaborators (Roles (Document ncd)) = [[didA]; []; [didC]] ∧
    map ReadAction (ReadRules (Document ncd))
    = [ACTION_READ_SIGN; ACTION_READ; ACTION_READ_SIGN] ∧
    length (TransitionRules (Document ncd)) = 1%nat ∧
    Nfts (Document ncd) = Nfts (Document anchored).
Proof.
  destruct (PrepareNewVersion anchored collaborators true poPrefix start)
    as [[ncd|e] r'] eqn:Heq; [|vm_compute in Heq; discriminate Heq].
  exists ncd, r'. split; [reflexivity|].
  destruct (PrepareNewVersion_collaborators (H := env) anchored collaborators true
              poPrefix start ncd r' [didA; didC] eq_refl eq_refl Heq)
    as (Hnfts & _ & Hroles).
  branch Hroles. destruct Hroles as (key & r0 & _ & Hr & Hrr & Htr).
  rewrite Hr, Hrr, Htr. repeat split. exact Hnfts.
Defined.

(** The signature of the anchored document appended once more. *)
Lemma AppendSignatures_present_witness :
  sigA ∈ signaturesOf anchored ∧
  signaturesOf (AppendSignatures [sigA] anchored) = [sigA; sigA] ∧
  fst (GetSignaturesRootHash (AppendSignatures [sigA] anchored))
  = signaturesRootOf [sigA; sigA].
Proof.
  assert (sigA ∈ signaturesOf anchored) as Hin by (by left).
  split; [exact Hin|].
  destruct (AppendSignatures_present (H := env) anchored sigA Hin) as (Hl & _ & Hr).
  split; [exact Hl|exact Hr].
Defined.

(** C1 does not hold of the code: the signatures root of the anchored
    document changes when its signature is appended once more. *)
Lemma signatureIdempotence_fails : ¬ signatureIdempotence anchored sigA.
Proof.
  intros Hc. unfold signatureIdempotence in Hc.
  assert (sigA ∈ signaturesOf anchored) as Hin by (by left).
  apply Hc in Hin. vm_compute in Hin. discriminate Hin.
Qed.

(** The document root of the anchored document, and none for the draft. *)
Lemma CalculateDocumentRoot_two_leaves_witness :
  ∃ st root cd1,
    signaturesTreeOf (SignatureDataOf (Document anchored)) = Ok st ∧
    CalculateDocumentRoot anchored = (Ok root, cd1) ∧
    root = proofs.hashPair (treeOptions DRTreePrefix) (replicate 32 x33)
             (proofs.RootHash st) ∧
    DocumentRoot (Document cd1) = root ∧
    CalculateDocumentRoot draft = (Err (Error "signing root is invalid"), draft).
Proof.
  destruct (signaturesTreeOf (SignatureDataOf (Document anchored)))
    as [st|e] eqn:Hst; [|vm_compute in Hst; discriminate Hst].
  destruct (proj1 (CalculateDocumentRoot_two_leaves (H := env) anchored) eq_refl st Hst)
    as (t & cd1 & _ & Hopts & _ & _ & Hroot & Hcalc).
  eexists st, (proofs.RootHash t), _. split; [reflexivity|].
  split; [exact Hcalc|]. split; [|split; [reflexivity|]].
  - rewrite Hroot, Hopts. reflexivity.
  - apply (proj2 (CalculateDocumentRoot_two_leaves (H := env) draft)).
    vm_compute. discriminate.
Defined.

(** Proofs of a field of the data tree, of the core document tree and of
    the signatures tree; no proof under the prefix of the signing tree. *)
Lemma CreateProofs_composition_witness :
  ∃ prfs cd',
    CreateProofs "po" dataTree
      [ "po.po_number"; "cd_tree.current_version";
        "signatures_tree.signatures[0].signature" ] anchored = (Ok prfs, cd') ∧
    length prfs = 3%nat ∧
    fst (CreateProofs "po" dataTree ["po.currency"; "signing_tree.data_root"]
           anchored) = Err ErrUnknownTreePrefix.
Proof.
  destruct (CreateProofs "po" dataTree
              [ "po.po_number"; "cd_tree.current_version";
                "signatures_tree.signatures[0].signature" ] anchored)
    as [[prfs|e] cd'] eqn:Heq; [|vm_compute in Heq; discriminate Heq].
  exists prfs, cd'. split; [reflexivity|]. split.
  - destruct (proj1 (CreateProofs_composition (H := env) "po" dataTree _ anchored)
                prfs cd' Heq) as (sigTree & cdTree & dataPrefix & _ & _ & _ & Hall).
    apply Forall2_length in Hall. symmetry. exact Hall.
  - destruct (CreateProofs "po" dataTree ["po.currency"] anchored)
      as [[prfs1|e] cd1] eqn:Heq1; [|vm_compute in Heq1; discriminate Heq1].
    apply (proj2 (proj2 (CreateProofs_composition (H := env) "po" dataTree
                           ["po.currency"; "signing_tree.data_root"] anchored))
             ["po.currency"] "signing_tree.data_root" [] prfs1 cd1 eq_refl Heq1).
    + decided.
    + vm_compute. discriminate.
Defined.

(** The NFT of the anchored document is bound with read access. *)
Lemma anchored_bound : boundWithReadAccess anchored registry tokenA.
Proof.
  split; [reflexivity|].
  exists {| RoleKey := keyN; Collaborators := []; RoleNfts := [registry ++ tokenA] |}.
  split; [vm_compute|]; by left.
Defined.

(** The owner that the registry names reads the anchored document. *)
Lemma NFTOwnerCanRead_iff_witness :
  boundWithReadAccess anchored registry tokenA ∧
  NFTOwnerCanRead anchored ownedByB registry tokenA didB = None.
Proof.
  split; [exact anchored_bound|].
  apply (proj2 (NFTOwnerCanRead_iff (H := env) anchored ownedByB registry tokenA
                  didB anchored_bound)).
  right. reflexivity.
Defined.

(** C3 does not hold of the model of the evaluator: the collaborator
    [didA] reads the anchored document although the registry names [didB]
    as the owner of the bound token. *)
Lemma nftAccessIffOwner_fails : ¬ nftAccessIffOwner anchored ownedByB registry tokenA.
Proof.
  intros Hc.
  specialize (Hc anchored_bound didA). destruct Hc as [Hc _].
  assert (NFTOwnerCanRead anchored ownedByB registry tokenA didA = None) as Hread
    by (vm_compute; reflexivity).
  apply Hc in Hread. vm_compute in Hread. discriminate Hread.
Qed.

(** A second NFT of the registry of the anchored document. *)
Lemma AddNFT_result_witness :
  ∃ ncd r',
    AddNFT true registry tokenB anchored start = (Ok ncd, r') ∧
    Nfts (Document ncd)
    = [ {| RegistryId := registry ++ zeroBytes 12; TokenId := tokenB |} ] ∧
    length (Roles (Document ncd)) = 3%nat ∧
    map ReadAction (ReadRules (Document ncd))
    = [ACTION_READ_SIGN; ACTION_READ; ACTION_READ].
Proof.
  destruct (AddNFT true registry tokenB anchored start)
    as [[ncd|e] r'] eqn:Heq; [|vm_compute in Heq; discriminate Heq].
  exists ncd, r'. split; [reflexivity|].
  destruct (AddNFT_result (H := env) true registry tokenB anchored start ncd r'
              eq_refl eq_refl eq_refl eq_refl Heq) as [Hnfts Hroles].
  branch Hnfts. destruct Hnfts as [Hnfts _].
  destruct Hroles as (key & Hr & Hrr).
  rewrite Hnfts, Hr, Hrr. repeat split.
Defined.

(** C2 does not hold of the model of [AddNFT]: a second NFT of the
    registry of the anchored document leaves one entry in [nfts]. *)
Lemma addNFTAlwaysAppends_fails :
  ¬ addNFTAlwaysAppends true registry tokenB anchored start.
Proof.
  intros Hc.
  destruct (AddNFT true registry tokenB anchored start)
    as [[ncd|e] r'] eqn:Heq; [|vm_compute in Heq; discriminate Heq].
  specialize (Hc eq_refl eq_refl eq_refl ncd r' Heq).
  apply (f_equal length) in Hc.
  assert (length (Nfts (Document ncd)) = 1%nat) as Hone.
  { vm_compute in Heq. by injection Heq as <- _. }
  rewrite Hone in Hc. vm_compute in Hc. discriminate Hc.
Qed.

(** The model of [AddNFT] on the steps of [TestCoreDocumentModel_AddNFT]:
    one NFT with a registry id of 32 bytes, one read rule and one role
    with one NFT after the first step; still one NFT, now with the second
    token id, two read rules and two roles after the second. *)
Example addNFTTest_passes :
  addNFTTest = Some (([1; 32; 1; 1; 1]%nat, Some tokenA),
                     ([1; 32; 2; 2; 1]%nat, Some tokenB)).
Proof. vm_compute. reflexivity. Qed.

(** The model of [AccountCanRead] and of the added collaborators on
    [TestReadAccessValidator_AccountCanRead]: the account the version was
    prepared for reads it, another one does not. *)
Example accountCanReadTest_passes : accountCanReadTest = Some (false, true).
Proof. vm_compute. reflexivity. Qed.

(** The model of [NFTOwnerCanRead] on the steps of
    [TestCoreDocument_NFTOwnerCanRead]: the collaborator reads; another
    account does not while the NFT is missing, while the registry fails,
    and while the registry names another owner; it reads when the
    registry names it. *)
Example nftOwnerTest_passes :
  nftOwnerTest = Some [true; false; false; false; true].
Proof. vm_compute. reflexivity. Qed.

(** The model of [GetCurrentVersion] on
    [TestService_GetCurrentVersion_error]: no record, no version; one
    record without a next version is the current version. *)
Example getCurrentVersionTest_passes :
  GetCurrentVersion account v0 ∅ = Err ErrDocumentVersionNotFound ∧
  GetCurrentVersion account v0 {[ (account, v0) := versionRecord v0 [] ]}
  = Ok (versionRecord v0 []).
Proof. split; vm_compute; reflexivity. Qed.

(** The last of three stored versions; an error for the cyclic store. *)
Lemma GetCurrentVersion_walk_witness :
  GetCurrentVersion account v0 chainStore = Ok (versionRecord v2 v3) ∧
  GetCurrentVersion account v0 cyclicStore = Err ErrCyclicVersions.
Proof.
  split.
  - apply (proj1 (GetCurrentVersion_walk account v0 chainStore
                    (versionRecord v0 v1) [v1; v2] (versionRecord v2 v3)
                    ltac:(vm_compute; reflexivity)
                    (follows_next account v0 chainStore (versionRecord v0 v1)
                       (versionRecord v1 v2) [v2] (versionRecord v2 v3)
                       ltac:(vm_compute; reflexivity)
                       (follows_next account v0 chainStore (versionRecord v1 v2)
                          (versionRecord v2 v3) [] (versionRecord v2 v3)
                          ltac:(vm_compute; reflexivity)
                          (follows_here account v0 chainStore (versionRecord v2 v3))))
                    ltac:(decided))).
    vm_compute. reflexivity.
  - apply (proj2 (GetCurrentVersion_walk account v0 cyclicStore
                    (versionRecord v0 v1) [v1; v2] (versionRecord v2 v1)
                    ltac:(vm_compute; reflexivity)
                    (follows_next account v0 cyclicStore (versionRecord v0 v1)
                       (versionRecord v1 v2) [v2] (versionRecord v2 v1)
                       ltac:(vm_compute; reflexivity)
                       (follows_next account v0 cyclicStore (versionRecord v1 v2)
                          (versionRecord v2 v1) [] (versionRecord v2 v1)
                          ltac:(vm_compute; reflexivity)
                          (follows_here account v0 cyclicStore (versionRecord v2 v1))))
                    ltac:(decided))).
    decided.
Defined.

(** A requester without access gets neither the document nor an error. *)
Lemma GetDocument_access_denied_witness :
  validateDocumentAccess handler request sealedModel didA
  = Some (Error "requester does not have access") ∧
  GetDocument handler request didA = (None, None).
Proof.
  split; [reflexivity|].
  exact (GetDocument_access_denied (H := env) handler request didA sealedModel
           (Error "requester does not have access") eq_refl eq_refl).
Defined.

End runs.
